(** * PyGenGuard: session stores, plane registry and the cooperative pipeline

    A shallow embedding of
      - [pygenguard/adapters/base.py], [memory.py], [redis.py]
        (session snapshots and their stores),
      - [pygenguard/plugins/base.py] (plane configuration and registry),
      - [pygenguard/async_guard/guard.py] (the cooperative pipeline),
    and a small-step model of threads calling the in-memory store,
    followed by the properties established about them.

    Conventions.
      - A Python [dict] keyed by strings whose order is never observed is a
        [gmap string _]; the registry, whose iteration order feeds
        [get_by_phase], is an association list in insertion order.
      - [datetime.utcnow().timestamp()] is a clock reading handed to the
        operation as an argument; timestamps are rationals.
      - A JSON text is represented by the value tree it denotes, so
        [json.dumps]/[json.loads] (and cjson on the server) are the identity
        on [JVal]. *)

From Stdlib Require Import ZArith QArith String List Lia Lqa Sorted.
From stdpp Require Import gmap strings list fin_maps.

Set Warnings "-register-all".

(** ** JSON values *)

Inductive JVal : Type :=
  | JNull
  | JBool (b : bool)
  | JInt (n : Z)
  | JNum (q : Q)
  | JStr (s : string)
  | JArr (l : list JVal)
  | JObj (m : gmap string JVal).

(** Outcome of a call that may raise. *)
Inductive Res (A : Type) : Type :=
  | Ok (a : A)
  | Exn (e : string).
Arguments Ok {A} a.
Arguments Exn {A} e.

(** Python truthiness of an [int]: only [0] is falsy ([None] is handled by
    the [option] around it). *)
Definition truthy (n : Z) : bool := negb (n =? 0)%Z.

(** [ttl if ttl is not None else self._default_ttl]. *)
Definition effective_ttl (ttl default_ttl : option Z) : option Z :=
  match ttl with
  | Some n => Some n
  | None => default_ttl
  end.

(** [a > b] on clock readings. *)
Definition Qgtb (a b : Q) : bool := negb (Qle_bool a b).

(** Clock readings available to one store operation: the caller's
    [datetime.utcnow().timestamp()] and, for a remote backend, the server's
    own time in whole seconds. *)
Record Clock : Type := mkClock {
  utcnow : Q;
  server_time : Z
}.

(** ** adapters/base.py *)

Module Store.

(** [SessionData] dataclass. *)
Record SessionData : Type := mkSessionData {
  user_id : string;
  fingerprint : string;
  trust_score : Z;
  last_seen : Q;
  tokens_used : Z;
  session_start : Q;
  history_summary : string;
  metadata : gmap string JVal
}.

Definition set_trust_score (v : Z) (d : SessionData) : SessionData :=
  mkSessionData (user_id d) (fingerprint d) v (last_seen d) (tokens_used d)
                (session_start d) (history_summary d) (metadata d).

Definition set_tokens_used (v : Z) (d : SessionData) : SessionData :=
  mkSessionData (user_id d) (fingerprint d) (trust_score d) (last_seen d) v
                (session_start d) (history_summary d) (metadata d).

Definition set_last_seen (v : Q) (d : SessionData) : SessionData :=
  mkSessionData (user_id d) (fingerprint d) (trust_score d) v (tokens_used d)
                (session_start d) (history_summary d) (metadata d).

(** The eight field names of the dataclass, i.e. the keyword arguments that
    the generated [__init__] accepts. *)
Definition field_names : gset string :=
  {[ "user_id"; "fingerprint"; "trust_score"; "last_seen"; "tokens_used";
     "session_start"; "history_summary"; "metadata" ]}.

(** [to_dict]: [asdict(self)]. *)
Definition to_dict (d : SessionData) : gmap string JVal :=
  <["user_id" := JStr (user_id d)]>
  (<["fingerprint" := JStr (fingerprint d)]>
  (<["trust_score" := JInt (trust_score d)]>
  (<["last_seen" := JNum (last_seen d)]>
  (<["tokens_used" := JInt (tokens_used d)]>
  (<["session_start" := JNum (session_start d)]>
  (<["history_summary" := JStr (history_summary d)]>
  (<["metadata" := JObj (metadata d)]> ∅))))))).

(** [to_json]: [json.dumps(self.to_dict())]. *)
Definition to_json (d : SessionData) : JVal := JObj (to_dict d).

(** Readers of one keyword argument.  A value whose JSON type contradicts
    the annotation of the field is outside the model and reported as
    ["ill-typed"]; a missing optional field takes its default. *)
Definition as_str (v : JVal) : Res string :=
  match v with JStr s => Ok s | _ => Exn "ill-typed" end.
Definition as_int (v : JVal) : Res Z :=
  match v with JInt n => Ok n | _ => Exn "ill-typed" end.
Definition as_num (v : JVal) : Res Q :=
  match v with JNum q => Ok q | JInt n => Ok (inject_Z n) | _ => Exn "ill-typed" end.
Definition as_obj (v : JVal) : Res (gmap string JVal) :=
  match v with JObj m => Ok m | _ => Exn "ill-typed" end.

Definition required {A} (rd : JVal → Res A) (o : option JVal) : Res A :=
  match o with
  | Some v => rd v
  | None => Exn "TypeError: missing required argument"
  end.

Definition optional {A} (rd : JVal → Res A) (dflt : A) (o : option JVal) : Res A :=
  match o with
  | Some v => rd v
  | None => Ok dflt
  end.

Definition bindR {A B} (r : Res A) (k : A → Res B) : Res B :=
  match r with
  | Ok a => k a
  | Exn e => Exn e
  end.

(** [from_dict]: the class applied to the entries of [data] as keyword
    arguments.  The generated constructor rejects every
    keyword that is not a field; [user_id] and [fingerprint] have no default;
    [last_seen] and [session_start] default to the current clock reading. *)
Definition from_dict (now : Q) (data : gmap string JVal) : Res SessionData :=
  if bool_decide (dom data ⊆ field_names) then
    bindR (required as_str (data !! "user_id")) (fun uid =>
    bindR (required as_str (data !! "fingerprint")) (fun fp =>
    bindR (optional as_int 100%Z (data !! "trust_score")) (fun ts =>
    bindR (optional as_num now (data !! "last_seen")) (fun ls =>
    bindR (optional as_int 0%Z (data !! "tokens_used")) (fun tu =>
    bindR (optional as_num now (data !! "session_start")) (fun ss =>
    bindR (optional as_str "" (data !! "history_summary")) (fun hs =>
    bindR (optional as_obj ∅ (data !! "metadata")) (fun md =>
    Ok (mkSessionData uid fp ts ls tu ss hs md)))))))))
  else Exn "TypeError: unexpected keyword argument".

(** [from_json]: [cls.from_dict(json.loads(json_str))]. *)
Definition from_json (now : Q) (json_str : JVal) : Res SessionData :=
  match json_str with
  | JObj data => from_dict now data
  | _ => Exn "TypeError: keyword arguments must be a mapping"
  end.

(** [BaseSessionStore]: the four abstract operations.  Each takes the clock
    readings of the call and returns its result with the store after it. *)
Class BaseSessionStore (S : Type) : Type := {
  get : Clock → string → S → option SessionData * S;
  set : Clock → string → SessionData → option Z → S → bool * S;
  delete : Clock → string → S → bool * S;
  exists_ : Clock → string → S → bool * S
}.

Section Defaults.
Context {S : Type} `{BaseSessionStore S}.

(** [BaseSessionStore.update_trust]: get, modify, set. *)
Definition base_update_trust (clk : Clock) (uid : string) (score : Z) (st : S)
  : bool * S :=
  match get clk uid st with
  | (None, st1) => (false, st1)
  | (Some data, st1) =>
      let data1 := set_trust_score score data in
      let data2 := set_last_seen (utcnow clk) data1 in
      set clk uid data2 None st1
  end.

(** [BaseSessionStore.increment_tokens]: get, modify, set. *)
Definition base_increment_tokens (clk : Clock) (uid : string) (count : Z) (st : S)
  : bool * S :=
  match get clk uid st with
  | (None, st1) => (false, st1)
  | (Some data, st1) =>
      let data1 := set_tokens_used (tokens_used data + count)%Z data in
      let data2 := set_last_seen (utcnow clk) data1 in
      set clk uid data2 None st1
  end.

(** [BaseSessionStore.touch]. *)
Definition base_touch (clk : Clock) (uid : string) (st : S) : bool * S :=
  match get clk uid st with
  | (None, st1) => (false, st1)
  | (Some data, st1) => set clk uid (set_last_seen (utcnow clk) data) None st1
  end.

End Defaults.

End Store.

(** ** adapters/memory.py *)

Module InMemorySessionStore.

(** The store object: [_store] maps a user id to the pair of the snapshot and
    its expiry time ([None]: never expires); the lock guards every method
    body and is not represented in the sequential model. *)
Record t : Type := mk {
  _store : gmap string (Store.SessionData * option Q);
  _default_ttl : option Z
}.

(** [__init__]. *)
Definition init (default_ttl : option Z) : t := mk ∅ default_ttl.

Definition _is_expired (now : Q) (expiry : option Q) : bool :=
  match expiry with
  | None => false
  | Some e => Qgtb now e
  end.

Definition get (clk : Clock) (uid : string) (st : t)
  : option Store.SessionData * t :=
  match _store st !! uid with
  | None => (None, st)
  | Some (data, expiry) =>
      if _is_expired (utcnow clk) expiry
      then (None, mk (delete uid (_store st)) (_default_ttl st))
      else (Some data, st)
  end.

Definition set (clk : Clock) (uid : string) (data : Store.SessionData)
    (ttl : option Z) (st : t) : bool * t :=
  let expiry :=
    match effective_ttl ttl (_default_ttl st) with
    | Some n => if truthy n then Some (utcnow clk + inject_Z n)%Q else None
    | None => None
    end in
  (true, mk (<[uid := (data, expiry)]> (_store st)) (_default_ttl st)).

Definition delete_ (clk : Clock) (uid : string) (st : t) : bool * t :=
  match _store st !! uid with
  | Some _ => (true, mk (delete uid (_store st)) (_default_ttl st))
  | None => (false, st)
  end.

Definition exists_ (clk : Clock) (uid : string) (st : t) : bool * t :=
  match _store st !! uid with
  | None => (false, st)
  | Some (_, expiry) =>
      if _is_expired (utcnow clk) expiry
      then (false, mk (delete uid (_store st)) (_default_ttl st))
      else (true, st)
  end.

#[export] Instance store_ops : Store.BaseSessionStore t := {|
  Store.get := get;
  Store.set := set;
  Store.delete := delete_;
  Store.exists_ := exists_
|}.

(** [_cleanup_expired]: drop every entry whose expiry is truthy (neither
    [None] nor 0) and lies in the past. *)
Definition collectible (now : Q) (expiry : option Q) : bool :=
  match expiry with
  | Some e => negb (Qeq_bool e 0) && Qgtb now e
  | None => false
  end.

Definition _cleanup_expired (now : Q) (st : t) : t :=
  mk (filter (fun kv => collectible now (snd (snd kv)) = false) (_store st))
     (_default_ttl st).

(** [get_all_users]: the keys that survive the clean-up (listed in the
    enumeration order of the map, not in insertion order). *)
Definition get_all_users (clk : Clock) (st : t) : list string * t :=
  let st1 := _cleanup_expired (utcnow clk) st in
  (fst <$> map_to_list (_store st1), st1).

(** [clear_all]: the number of entries held, expired or not. *)
Definition clear_all (st : t) : nat * t :=
  (size (_store st), mk ∅ (_default_ttl st)).

(** [size]. *)
Definition size_ (clk : Clock) (st : t) : nat * t :=
  let st1 := _cleanup_expired (utcnow clk) st in
  (size (_store st1), st1).

(** [update_trust], [increment_tokens] and [touch] are not overridden: the
    class inherits the defaults of [BaseSessionStore]. *)
Definition update_trust : Clock → string → Z → t → bool * t :=
  Store.base_update_trust.
Definition increment_tokens : Clock → string → Z → t → bool * t :=
  Store.base_increment_tokens.
Definition touch : Clock → string → t → bool * t :=
  Store.base_touch.

(** The expiry recorded for a key, if the key is stored. *)
Definition expiry_of (uid : string) (st : t) : option (option Q) :=
  snd <$> (_store st !! uid).

End InMemorySessionStore.

(** ** adapters/redis.py *)

Module RedisSessionStore.

(** *** The server
    The commands the adapter sends, following the Redis command reference:
    a keyspace of string values, each with an optional absolute expiry in
    server seconds.  A key whose expiry lies in the past is absent to every
    command.  Connection faults are not modelled; the one command error that
    the adapter can provoke, [SETEX] with a non-positive time, is.  Records
    are kept as exact value trees: the way the server's encoder prints
    numbers and the rounding of remaining times to whole seconds are not
    represented. *)
Abbreviation keyspace := (gmap string (JVal * option Z)).

Definition expired (now : Z) (e : option Z) : bool :=
  match e with
  | Some t => (t <? now)%Z
  | None => false
  end.

(** The entry of a key that is present and not expired. *)
Definition live (now : Z) (key : string) (db : keyspace) : option (JVal * option Z) :=
  match db !! key with
  | Some (v, e) => if expired now e then None else Some (v, e)
  | None => None
  end.

Definition redis_get (now : Z) (key : string) (db : keyspace) : option JVal :=
  fst <$> live now key db.

Definition redis_set (key : string) (v : JVal) (db : keyspace) : keyspace :=
  <[key := (v, None)]> db.

Definition redis_setex (now : Z) (key : string) (seconds : Z) (v : JVal)
    (db : keyspace) : Res keyspace :=
  if (0 <? seconds)%Z
  then Ok (<[key := (v, Some (now + seconds)%Z)]> db)
  else Exn "ERR invalid expire time in 'setex' command".

(** [TTL]: -2 for an absent key, -1 for a key without expiry, otherwise the
    remaining time. *)
Definition redis_ttl (now : Z) (key : string) (db : keyspace) : Z :=
  match live now key db with
  | None => (-2)%Z
  | Some (_, None) => (-1)%Z
  | Some (_, Some t) => (t - now)%Z
  end.

Definition redis_del (now : Z) (key : string) (db : keyspace) : Z * keyspace :=
  match live now key db with
  | Some _ => (1%Z, delete key db)
  | None => (0%Z, delete key db)
  end.

Definition redis_exists (now : Z) (key : string) (db : keyspace) : Z :=
  match live now key db with
  | Some _ => 1%Z
  | None => 0%Z
  end.

(** *** The adapter *)
Record t : Type := mk {
  _redis : keyspace;
  _prefix : string;
  _default_ttl : option Z
}.

Definition with_redis (db : keyspace) (st : t) : t :=
  mk db (_prefix st) (_default_ttl st).

Definition _key (st : t) (uid : string) : string := _prefix st +:+ uid.

(** [get]: a value that [from_json] rejects raises inside the [try] and is
    reported as [None]. *)
Definition get (clk : Clock) (uid : string) (st : t)
  : option Store.SessionData * t :=
  match redis_get (server_time clk) (_key st uid) (_redis st) with
  | None => (None, st)
  | Some data =>
      match Store.from_json (utcnow clk) data with
      | Ok d => (Some d, st)
      | Exn _ => (None, st)
      end
  end.

Definition set (clk : Clock) (uid : string) (data : Store.SessionData)
    (ttl : option Z) (st : t) : bool * t :=
  let key := _key st uid in
  match effective_ttl ttl (_default_ttl st) with
  | Some n =>
      if truthy n then
        match redis_setex (server_time clk) key n (Store.to_json data) (_redis st) with
        | Ok db => (true, with_redis db st)
        | Exn _ => (false, st)
        end
      else (true, with_redis (redis_set key (Store.to_json data) (_redis st)) st)
  | None => (true, with_redis (redis_set key (Store.to_json data) (_redis st)) st)
  end.

Definition delete_ (clk : Clock) (uid : string) (st : t) : bool * t :=
  let '(result, db) := redis_del (server_time clk) (_key st uid) (_redis st) in
  ((0 <? result)%Z, with_redis db st).

Definition exists_ (clk : Clock) (uid : string) (st : t) : bool * t :=
  (negb (redis_exists (server_time clk) (_key st uid) (_redis st) =? 0)%Z, st).

#[export] Instance store_ops : Store.BaseSessionStore t := {|
  Store.get := get;
  Store.set := set;
  Store.delete := delete_;
  Store.exists_ := exists_
|}.

(** The tail shared by both scripts: read the remaining time and write the
    encoded session back, with [SETEX] when the time is positive and with a
    plain [SET] otherwise. *)
Definition lua_write_back (now : Z) (key : string) (session : gmap string JVal)
    (db : keyspace) : Res keyspace :=
  let ttl := redis_ttl now key db in
  if (0 <? ttl)%Z
  then redis_setex now key ttl (JObj session) db
  else Ok (redis_set key (JObj session) db).

(** The Lua script of [update_trust], run by the server as one command.
    [cjson.decode] of anything but an object leaves no table to assign
    fields to, and the script fails. *)
Definition lua_update_trust (now : Z) (key : string) (new_trust : Z) (stamp : Q)
    (db : keyspace) : Res (Z * keyspace) :=
  match redis_get now key db with
  | None => Ok (0%Z, db)
  | Some (JObj session) =>
      let session1 := <["trust_score" := JInt new_trust]> session in
      let session2 := <["last_seen" := JNum stamp]> session1 in
      match lua_write_back now key session2 db with
      | Ok db' => Ok (1%Z, db')
      | Exn e => Exn e
      end
  | Some _ => Exn "script error"
  end.

(** [session.tokens_used or 0]: a missing (or false) counter counts as 0;
    an integer counter is itself; any other value cannot be added to and
    fails the script. *)
Definition lua_counter (o : option JVal) : Res Z :=
  match o with
  | None => Ok 0%Z
  | Some (JBool false) => Ok 0%Z
  | Some (JInt n) => Ok n
  | Some _ => Exn "script error"
  end.

(** The Lua script of [increment_tokens]; it returns the new counter. *)
Definition lua_increment_tokens (now : Z) (key : string) (count : Z) (stamp : Q)
    (db : keyspace) : Res (Z * keyspace) :=
  match redis_get now key db with
  | None => Ok (0%Z, db)
  | Some (JObj session) =>
      match lua_counter (session !! "tokens_used") with
      | Ok old =>
          let total := (old + count)%Z in
          let session1 := <["tokens_used" := JInt total]> session in
          let session2 := <["last_seen" := JNum stamp]> session1 in
          match lua_write_back now key session2 db with
          | Ok db' => Ok (total, db')
          | Exn e => Exn e
          end
      | Exn e => Exn e
      end
  | Some _ => Exn "script error"
  end.

(** [update_trust]: [result == 1]; on an exception, the base implementation. *)
Definition update_trust (clk : Clock) (uid : string) (score : Z) (st : t)
  : bool * t :=
  match lua_update_trust (server_time clk) (_key st uid) score (utcnow clk) (_redis st) with
  | Ok (result, db) => ((result =? 1)%Z, with_redis db st)
  | Exn _ => Store.base_update_trust clk uid score st
  end.

(** [increment_tokens]: [result > 0]; on an exception, the base
    implementation. *)
Definition increment_tokens (clk : Clock) (uid : string) (count : Z) (st : t)
  : bool * t :=
  match lua_increment_tokens (server_time clk) (_key st uid) count (utcnow clk) (_redis st) with
  | Ok (result, db) => ((0 <? result)%Z, with_redis db st)
  | Exn _ => Store.base_increment_tokens clk uid count st
  end.

(** The decoded record and the expiry the server holds for a user. *)
Definition record_of (clk : Clock) (uid : string) (st : t) : option JVal :=
  redis_get (server_time clk) (_key st uid) (_redis st).
Definition expiry_of (clk : Clock) (uid : string) (st : t) : option (option Z) :=
  snd <$> live (server_time clk) (_key st uid) (_redis st).

End RedisSessionStore.

(** ** Result and session types *)

Module Types.

(** Modelled from the spec: [pygenguard/decision.py] is not part of the
    sources.  [PlaneResult] is one check's outcome with the five fields of
    the data model, in the order the tests construct it. *)
Record PlaneResult : Type := mkPlaneResult {
  plane_name : string;
  passed : bool;
  risk_score : Q;
  details : string;
  latency_ms : Q
}.

Inductive Action : Type := ALLOW | BLOCK | DEGRADE.

(** Modelled from the spec: the [Decision] record of the data model. *)
Record Decision : Type := mkDecision {
  trace_id : string;
  allowed : bool;
  action : Action;
  rationale : string;
  safe_response : option string;
  plane_results : gmap string PlaneResult
}.

(** Modelled from the spec: the three constructors of [Decision] that the
    pipeline calls.  A block is not allowed; a degraded answer is still
    allowed (the tests accept [allowed is True] with action DEGRADE) and
    carries the notice [degrade_response], whose wording the sources do not
    show. *)
Definition create_block (tid : string) (results : gmap string PlaneResult)
    (why : string) (response : string) : Decision :=
  mkDecision tid false BLOCK why (Some response) results.

Definition create_degrade (degrade_response : string) (tid : string)
    (results : gmap string PlaneResult) (why : string) : Decision :=
  mkDecision tid true DEGRADE why (Some degrade_response) results.

Definition create_allow (tid : string) (results : gmap string PlaneResult)
    (why : string) : Decision :=
  mkDecision tid true ALLOW why None results.

(** Modelled from the spec: [pygenguard/session.py] is not part of the
    sources.  The live session with the key fields of the data model. *)
Record Session : Type := mkSession {
  user_id : string;
  fingerprint : string;
  trust_score : Z;
  tokens_used : Z;
  history : list string
}.

(** Modelled from the spec: [Session.increment_tokens] adds the cost of the
    turn to [tokens_used]. *)
Definition increment_tokens (n : Z) (s : Session) : Session :=
  mkSession (user_id s) (fingerprint s) (trust_score s) (tokens_used s + n)%Z
            (history s).

End Types.

(** ** plugins/base.py *)

Module Plugins.
Import Types.

Inductive PlanePhase : Type :=
  | PRE_IDENTITY
  | POST_IDENTITY
  | POST_INTENT
  | POST_CONTEXT
  | POST_ECONOMICS
  | POST_COMPLIANCE.

#[export] Instance PlanePhase_eq_dec : EqDecision PlanePhase.
Proof. solve_decision. Defined.

Record PlaneConfig : Type := mkPlaneConfig {
  name : string;
  phase : PlanePhase;
  enabled : bool;
  priority : Z;
  fail_action : string
}.

(** [PlaneConfig(name, phase)] with the defaults of the dataclass. *)
Definition default_config (n : string) (ph : PlanePhase) : PlaneConfig :=
  mkPlaneConfig n ph true 100%Z "block".

(** A subclass of [BasePlane]: its [get_config] and the body of its
    [evaluate], which receives the prompt, the session and the
    [plane_results] of the context, and returns a result or raises. *)
Record PlaneClass : Type := mkPlaneClass {
  get_config : PlaneConfig;
  evaluate : string → Session → gmap string PlaneResult → Res PlaneResult
}.

(** An instance of a plane: [__init__] stores its own copy of the
    configuration, which [enable]/[disable] mutate. *)
Record BasePlane : Type := mkBasePlane {
  plane_class : PlaneClass;
  _config : PlaneConfig
}.

Definition new_plane (c : PlaneClass) : BasePlane := mkBasePlane c (get_config c).

Definition plane_enabled (p : BasePlane) : bool := enabled (_config p).

Definition set_enabled (b : bool) (p : BasePlane) : BasePlane :=
  mkBasePlane (plane_class p)
    (mkPlaneConfig (name (_config p)) (phase (_config p)) b
                   (priority (_config p)) (fail_action (_config p))).
Definition enable : BasePlane → BasePlane := set_enabled true.

(** [evaluate_async]: the default wraps the synchronous [evaluate]. *)
Definition evaluate_async (p : BasePlane) (prompt : string) (s : Session)
    (results : gmap string PlaneResult) : Res PlaneResult :=
  evaluate (plane_class p) prompt s results.

(** *** Insertion-ordered dictionaries *)

Fixpoint dict_get {V} (k : string) (d : list (string * V)) : option V :=
  match d with
  | [] => None
  | (k', v) :: rest => if decide (k = k') then Some v else dict_get k rest
  end.

(** [d[k] = v]: an existing key keeps its position, a new one goes last. *)
Fixpoint dict_set {V} (k : string) (v : V) (d : list (string * V))
  : list (string * V) :=
  match d with
  | [] => [(k, v)]
  | (k', v') :: rest =>
      if decide (k = k') then (k, v) :: rest else (k', v') :: dict_set k v rest
  end.

Fixpoint dict_del {V} (k : string) (d : list (string * V)) : list (string * V) :=
  match d with
  | [] => []
  | (k', v') :: rest =>
      if decide (k = k') then rest else (k', v') :: dict_del k rest
  end.

Definition dict_update {V} (d other : list (string * V)) : list (string * V) :=
  foldl (fun acc kv => dict_set (fst kv) (snd kv) acc) d other.

(** [sorted(..., key=priority)]: a stable insertion sort. *)
Fixpoint insert_sorted (c : PlaneClass) (l : list PlaneClass) : list PlaneClass :=
  match l with
  | [] => [c]
  | x :: rest =>
      if (priority (get_config c) <? priority (get_config x))%Z
      then c :: x :: rest
      else x :: insert_sorted c rest
  end.

Definition sorted_by_priority (l : list PlaneClass) : list PlaneClass :=
  foldr (fun c acc => insert_sorted c acc) [] (reverse l).

(** *** PlaneRegistry
    [_global_registry] is the class attribute shared by every registry. *)
Record PlaneRegistry : Type := mkPlaneRegistry {
  _local_registry : list (string * PlaneClass);
  _global_registry : list (string * PlaneClass)
}.

(** [register] returns the class, or raises; the second component is the
    registry after the call. *)
Definition register (r : PlaneRegistry) (c : PlaneClass) (override : bool)
  : Res PlaneClass * PlaneRegistry :=
  let n := name (get_config c) in
  let stored := mkPlaneRegistry (dict_set n c (_local_registry r)) (_global_registry r) in
  match dict_get n (_local_registry r) with
  | Some _ =>
      if override
      then (Ok c, stored)
      else (Exn "ValueError: plane already registered", r)
  | None => (Ok c, stored)
  end.

Definition unregister (r : PlaneRegistry) (n : string) : bool * PlaneRegistry :=
  match dict_get n (_local_registry r) with
  | Some _ => (true, mkPlaneRegistry (dict_del n (_local_registry r)) (_global_registry r))
  | None => (false, r)
  end.

Definition get (r : PlaneRegistry) (n : string) : option PlaneClass :=
  match dict_get n (_local_registry r) with
  | Some c => Some c
  | None => dict_get n (_global_registry r)
  end.

Definition get_all (r : PlaneRegistry) : list (string * PlaneClass) :=
  dict_update (_global_registry r) (_local_registry r).

Definition get_by_phase (r : PlaneRegistry) (ph : PlanePhase) : list PlaneClass :=
  sorted_by_priority
    (filter (fun c => phase (get_config c) = ph) (snd <$> get_all r)).

Definition register_global (r : PlaneRegistry) (c : PlaneClass) : PlaneRegistry :=
  mkPlaneRegistry (_local_registry r)
                  (dict_set (name (get_config c)) c (_global_registry r)).

(** [clear]: drop the local registrations. *)
Definition clear (r : PlaneRegistry) : PlaneRegistry :=
  mkPlaneRegistry [] (_global_registry r).

Definition empty_registry : PlaneRegistry := mkPlaneRegistry [] [].

(** What the two dictionaries of a registry satisfy by construction: no
    name occurs twice, and every class is filed under the name of its own
    configuration. *)
Definition dict_ok (d : list (string * PlaneClass)) : Prop :=
  NoDup (fst <$> d) ∧ Forall (fun kv => fst kv = name (get_config (snd kv))) d.

Definition well_formed (r : PlaneRegistry) : Prop :=
  dict_ok (_local_registry r) ∧ dict_ok (_global_registry r).

(** Ascending priority. *)
Definition priority_le (a b : PlaneClass) : Prop :=
  (priority (get_config a) ≤ priority (get_config b))%Z.

End Plugins.

(** ** async_guard/guard.py *)

Module AsyncGuard.
Import Types Plugins.

(** The guard object.  The five built-in planes are collaborators outside
    the sources, held as the functions their [evaluate] methods compute on
    the arguments the pipeline passes; each returns a result or raises.
    [_audit_log] is the sink of the audit logger. *)
Record t : Type := mk {
  _identity_plane : Session → Res PlaneResult;
  _intent_plane : string → Res PlaneResult;
  _context_plane : string → list string → Res PlaneResult;
  _economics_plane : Session → Res PlaneResult;
  _compliance_plane : string → Res PlaneResult;
  _registry : PlaneRegistry;
  _plugin_instances : gmap string BasePlane;
  _audit_enabled : bool;
  _audit_log : list Decision
}.

Definition with_instances (m : gmap string BasePlane) (g : t) : t :=
  mk (_identity_plane g) (_intent_plane g) (_context_plane g)
     (_economics_plane g) (_compliance_plane g) (_registry g) m
     (_audit_enabled g) (_audit_log g).

Definition with_registry (r : PlaneRegistry) (g : t) : t :=
  mk (_identity_plane g) (_intent_plane g) (_context_plane g)
     (_economics_plane g) (_compliance_plane g) r (_plugin_instances g)
     (_audit_enabled g) (_audit_log g).

Definition with_audit_log (l : list Decision) (g : t) : t :=
  mk (_identity_plane g) (_intent_plane g) (_context_plane g)
     (_economics_plane g) (_compliance_plane g) (_registry g)
     (_plugin_instances g) (_audit_enabled g) l.

(** [register_plugin]: register the class, then instantiate it. *)
Definition register_plugin (g : t) (c : PlaneClass) : Res unit * t :=
  match register (_registry g) c false with
  | (Ok _, r) =>
      (Ok tt,
       with_instances (<[name (get_config c) := new_plane c]> (_plugin_instances g))
                      (with_registry r g))
  | (Exn e, r) => (Exn e, with_registry r g)
  end.

(** The loop of [_get_plugins_for_phase]: instantiate on first use, keep the
    enabled planes. *)
Fixpoint collect_plugins (classes : list PlaneClass) (insts : gmap string BasePlane)
  : list BasePlane * gmap string BasePlane :=
  match classes with
  | [] => ([], insts)
  | c :: rest =>
      let n := name (get_config c) in
      let insts1 :=
        match insts !! n with
        | Some _ => insts
        | None => <[n := new_plane c]> insts
        end in
      let plane := default (new_plane c) (insts1 !! n) in
      let '(plugins, insts2) := collect_plugins rest insts1 in
      (if plane_enabled plane then plane :: plugins else plugins, insts2)
  end.

Definition _get_plugins_for_phase (g : t) (ph : PlanePhase) : list BasePlane * t :=
  let '(plugins, insts) :=
    collect_plugins (get_by_phase (_registry g) ph) (_plugin_instances g) in
  (plugins, with_instances insts g).

(** *** The evaluation monad
    One evaluation threads the guard (plugin instances, audit sink) and the
    session, and stops at the first exception that is not captured. *)
Definition M (A : Type) : Type := t * Session → Res A * (t * Session).

Definition ret {A} (a : A) : M A := fun w => (Ok a, w).

Definition bind {A B} (m : M A) (k : A → M B) : M B :=
  fun w =>
    match m w with
    | (Ok a, w1) => k a w1
    | (Exn e, w1) => (Exn e, w1)
    end.

Notation "'do' x <- m ; k" := (bind m (fun x => k))
  (at level 10, x name, m at level 100, k at level 200).

(** [_run_sync_plane]: the value or the exception of the offloaded call. *)
Definition _run_sync_plane (call : t → Session → Res PlaneResult) : M PlaneResult :=
  fun w => (call (fst w) (snd w), w).

(** [_run_plugins]: every enabled plugin of the phase is evaluated on the
    same context; [gather(..., return_exceptions=True)] returns, in plugin
    order, each plugin's result or the exception it raised. *)
Definition _run_plugins (ph : PlanePhase) (prompt : string)
    (results : gmap string PlaneResult) : M (list (Res PlaneResult)) :=
  fun w =>
    let '(plugins, g1) := _get_plugins_for_phase (fst w) ph in
    (Ok ((fun p => evaluate_async p prompt (snd w) results) <$> plugins),
     (g1, snd w)).

(** The enabled plugins a phase runs, the guard after their lazy creation,
    and the gathered outcomes of the phase. *)
Definition phase_plugins (g : t) (ph : PlanePhase) : list BasePlane :=
  fst (_get_plugins_for_phase g ph).
Definition after_phase (g : t) (ph : PlanePhase) : t :=
  snd (_get_plugins_for_phase g ph).
Definition phase_outcomes (g : t) (ph : PlanePhase) (prompt : string)
    (s : Session) (results : gmap string PlaneResult) : list (Res PlaneResult) :=
  (fun p => evaluate_async p prompt s results) <$> phase_plugins g ph.

(** No result that the class returns is filed under the name [k]. *)
Definition avoids (k : string) (c : PlaneClass) : Prop :=
  ∀ prompt s results r, evaluate c prompt s results = Ok r → plane_name r ≠ k.

(** Every plugin the guard can run, registered or already instantiated,
    avoids the name [k]. *)
Definition plugins_avoid (k : string) (g : t) : Prop :=
  (∀ ph c, c ∈ get_by_phase (_registry g) ph → avoids k c)
  ∧ (∀ n p, _plugin_instances g !! n = Some p → avoids k (plane_class p)).







(** [_log_async]: one entry in the audit sink. *)
Definition _log_async (d : Decision) : M unit :=
  fun w =>
    let g := fst w in
    (Ok tt, (if _audit_enabled g then with_audit_log (_audit_log g ++ [d]) g else g,
             snd w)).

Definition finish (d : Decision) : M Decision :=
  do _ <- _log_async d; ret d.

(** The loop after the pre-identity phase: record each [PlaneResult]; stop
    at the first one that did not pass.  Captured exceptions are skipped. *)
Fixpoint record_pre (results : list (Res PlaneResult)) (pr : gmap string PlaneResult)
  : gmap string PlaneResult * option PlaneResult :=
  match results with
  | [] => (pr, None)
  | Ok result :: rest =>
      let pr1 := <[plane_name result := result]> pr in
      if passed result then record_pre rest pr1 else (pr1, Some result)
  | Exn _ :: rest => record_pre rest pr
  end.

(** The loop after every later phase: record each [PlaneResult]. *)
Fixpoint record_post (results : list (Res PlaneResult)) (pr : gmap string PlaneResult)
  : gmap string PlaneResult :=
  match results with
  | [] => pr
  | Ok result :: rest => record_post rest (<[plane_name result := result]> pr)
  | Exn _ :: rest => record_post rest pr
  end.

Definition session_increment_tokens (n : Z) : M unit :=
  fun w => (Ok tt, (fst w, increment_tokens n (snd w))).

Section Inspect.
(** Collaborators the sources do not show: [Session.get_full_context] and
    the default notice of a degraded decision. *)
Variable get_full_context : Session → string.
Variable degrade_response : string.

(** [inspect]; [tid] is the uuid drawn for the evaluation. *)
Definition inspect (tid : string) (prompt : string) : M Decision :=
  do pre_results <- _run_plugins PRE_IDENTITY prompt ∅;
  match record_pre pre_results ∅ with
  | (pr, Some result) =>
      finish (create_block tid pr
                ("Pre-identity plugin failed: " +:+ details result)
                "Request validation failed.")
  | (pr, None) =>
  do identity_result <- _run_sync_plane (fun g s => _identity_plane g s);
  let pr := <["identity" := identity_result]> pr in
  if negb (passed identity_result) then
    finish (create_block tid pr
              ("Identity check failed: " +:+ details identity_result)
              "Session verification required.")
  else
  do post_identity_results <- _run_plugins POST_IDENTITY prompt pr;
  let pr := record_post post_identity_results pr in
  do intent_result <- _run_sync_plane (fun g _ => _intent_plane g prompt);
  let pr := <["intent" := intent_result]> pr in
  if negb (passed intent_result) then
    finish (create_block tid pr
              ("Intent analysis failed: " +:+ details intent_result)
              "I can't help with that request.")
  else
  do post_intent_results <- _run_plugins POST_INTENT prompt pr;
  let pr := record_post post_intent_results pr in
  do context_result <- _run_sync_plane (fun g s =>
       _context_plane g (get_full_context s +:+ " " +:+ prompt) (history s));
  let pr := <["context" := context_result]> pr in
  if negb (passed context_result) then
    finish (create_block tid pr
              ("Context analysis failed: " +:+ details context_result)
              "This conversation cannot continue.")
  else
  do post_context_results <- _run_plugins POST_CONTEXT prompt pr;
  let pr := record_post post_context_results pr in
  do _ <- session_increment_tokens (Z.of_nat (String.length prompt));
  do economics_result <- _run_sync_plane (fun g s => _economics_plane g s);
  let pr := <["economics" := economics_result]> pr in
  if negb (passed economics_result) then
    finish (create_degrade degrade_response tid pr
              ("Rate limiting applied: " +:+ details economics_result))
  else
  do post_economics_results <- _run_plugins POST_ECONOMICS prompt pr;
  let pr := record_post post_economics_results pr in
  do compliance_result <- _run_sync_plane (fun g _ => _compliance_plane g prompt);
  let pr := <["compliance" := compliance_result]> pr in
  do post_compliance_results <- _run_plugins POST_COMPLIANCE prompt pr;
  let pr := record_post post_compliance_results pr in
  finish (create_allow tid pr "All security planes passed.")
  end.

(** The tasks of [inspect_batch], each on the session of its own request.
    They share the guard; none is cancelled when another one raises. *)
Fixpoint run_tasks (requests : list (string * string * Session)) (g : t)
  : list (Res Decision * Session) * t :=
  match requests with
  | [] => ([], g)
  | (tid, prompt, session) :: rest =>
      let '(r, (g1, session1)) := inspect tid prompt (g, session) in
      let '(outs, g2) := run_tasks rest g1 in
      ((r, session1) :: outs, g2)
  end.

(** [asyncio.gather] over the tasks, with the default [return_exceptions=False]: the
    list of all values, in task order, unless a task raised, in which case
    the awaiting caller gets that exception instead of a list. *)
Fixpoint gather {A} (outs : list (Res A)) : Res (list A) :=
  match outs with
  | [] => Ok []
  | Exn e :: _ => Exn e
  | Ok a :: rest =>
      match gather rest with
      | Ok l => Ok (a :: l)
      | Exn e => Exn e
      end
  end.

(** [inspect_batch]; every request comes with the uuid drawn for it. *)
Definition inspect_batch (requests : list (string * string * Session)) (g : t)
  : Res (list Decision) * t :=
  let '(outs, g1) := run_tasks requests g in
  (gather (fst <$> outs), g1).

End Inspect.

End AsyncGuard.

(** ** Concurrent callers of the in-memory store

    Threads that call methods of one [InMemorySessionStore].  The lock is
    held for the body of [get], [set] and [delete], so each of those is one
    indivisible step; the statements that [BaseSessionStore.increment_tokens]
    runs between its [get] and its [set] hold no lock.  [get] hands out the
    stored object itself, so the store keeps references into a heap of
    snapshots. *)

Module Interleaving.

Record Shared : Type := mkShared {
  heap : gmap nat Store.SessionData;
  _store : gmap string (nat * option Q);
  _default_ttl : option Z
}.

(** What a thread was asked to do. *)
Inductive Call : Type :=
  | IncrementTokens (uid : string) (count : Z)
  | Delete (uid : string).

(** Where a thread stands inside its call. *)
Inductive Pc : Type :=
  | AtGet                          (* about to run [self.get(user_id)] *)
  | AtLoad (ref : nat)             (* about to read [data.tokens_used] *)
  | AtStore (ref : nat) (seen : Z) (* about to write [data.tokens_used] *)
  | AtStamp (ref : nat)            (* about to write [data.last_seen] *)
  | AtSet (ref : nat)              (* about to run [self.set(user_id, data)] *)
  | Returned (result : bool).

Record Thread : Type := mkThread {
  call : Call;
  pc : Pc
}.

Definition spawn (c : Call) : Thread := mkThread c AtGet.

Definition update_heap (ref : nat) (f : Store.SessionData → Store.SessionData)
    (sh : Shared) : Shared :=
  mkShared (alter f ref (heap sh)) (_store sh) (_default_ttl sh).

(** One step of a thread at clock reading [now]. *)
Definition step (now : Q) (th : Thread) (sh : Shared) : Thread * Shared :=
  match call th, pc th with
  | _, Returned _ => (th, sh)
  | Delete uid, _ =>
      match _store sh !! uid with
      | Some _ =>
          (mkThread (call th) (Returned true),
           mkShared (heap sh) (delete uid (_store sh)) (_default_ttl sh))
      | None => (mkThread (call th) (Returned false), sh)
      end
  | IncrementTokens uid count, AtGet =>
      match _store sh !! uid with
      | None => (mkThread (call th) (Returned false), sh)
      | Some (ref, expiry) =>
          if InMemorySessionStore._is_expired now expiry
          then (mkThread (call th) (Returned false),
                mkShared (heap sh) (delete uid (_store sh)) (_default_ttl sh))
          else (mkThread (call th) (AtLoad ref), sh)
      end
  | IncrementTokens uid count, AtLoad ref =>
      match heap sh !! ref with
      | Some data => (mkThread (call th) (AtStore ref (Store.tokens_used data)), sh)
      | None => (th, sh)
      end
  | IncrementTokens uid count, AtStore ref seen =>
      (mkThread (call th) (AtStamp ref),
       update_heap ref (Store.set_tokens_used (seen + count)%Z) sh)
  | IncrementTokens uid count, AtStamp ref =>
      (mkThread (call th) (AtSet ref), update_heap ref (Store.set_last_seen now) sh)
  | IncrementTokens uid count, AtSet ref =>
      let expiry :=
        match _default_ttl sh with
        | Some n => if truthy n then Some (now + inject_Z n)%Q else None
        | None => None
        end in
      (mkThread (call th) (Returned true),
       mkShared (heap sh) (<[uid := (ref, expiry)]> (_store sh)) (_default_ttl sh))
  end.

(** A schedule names, step by step, the thread that runs next and the clock
    reading it sees. *)
Fixpoint run (schedule : list (nat * Q)) (threads : list Thread) (sh : Shared)
  : list Thread * Shared :=
  match schedule with
  | [] => (threads, sh)
  | (i, now) :: rest =>
      match threads !! i with
      | Some th =>
          let '(th', sh') := step now th sh in
          run rest (<[i := th']> threads) sh'
      | None => run rest threads sh
      end
  end.

(** The snapshot a user id currently leads to. *)
Definition lookup_session (uid : string) (sh : Shared) : option Store.SessionData :=
  match _store sh !! uid with
  | Some (ref, _) => heap sh !! ref
  | None => None
  end.

(** A store holding one session, allocated at reference 0. *)
Definition single (uid : string) (data : Store.SessionData) : Shared :=
  mkShared {[ 0%nat := data ]} {[ uid := (0%nat, None) ]} None.

End Interleaving.

(** ** Sample values used by the examples *)

Module IM := InMemorySessionStore.
Module RS := RedisSessionStore.
Module AG := AsyncGuard.

Module Samples.
Import Types Plugins.

Definition sample_data : Store.SessionData :=
  Store.mkSessionData "u1" "fp" 90 (5 # 2) 7 (1 # 1) "" (<["plan" := JStr "pro"]> ∅).

Definition zero_counter_data : Store.SessionData :=
  Store.mkSessionData "u1" "fp" 100 0 0 0 "" ∅.

Definition zero_counter_store : RS.t :=
  snd (RS.set (mkClock 0 0) "u1" zero_counter_data None (RS.mk ∅ "s:" None)).

Definition pass_result (n : string) : PlaneResult := mkPlaneResult n true 0 "ok" 0.
Definition fail_result (n : string) : PlaneResult := mkPlaneResult n false 1 "rejected" 0.
Definition verdict (n : string) (ok : bool) : PlaneResult :=
  if ok then pass_result n else fail_result n.

(** Two classes that share the name ["duplicate"], as in the test suite. *)
Definition PlaneA : PlaneClass :=
  mkPlaneClass (default_config "duplicate" POST_INTENT)
    (fun _ _ _ => Ok (pass_result "dup")).
Definition PlaneB : PlaneClass :=
  mkPlaneClass (default_config "duplicate" POST_INTENT)
    (fun _ _ _ => Ok (fail_result "dup")).

(** A plugin of the given phase and fail action whose check always fails. *)
Definition failing_plugin (n : string) (ph : PlanePhase) (fa : string) : PlaneClass :=
  mkPlaneClass (mkPlaneConfig n ph true 100 fa) (fun _ _ _ => Ok (fail_result n)).

(** A plugin whose check always passes, and one whose check always raises. *)
Definition passing_plugin (n : string) (ph : PlanePhase) (prio : Z) : PlaneClass :=
  mkPlaneClass (mkPlaneConfig n ph true prio "block") (fun _ _ _ => Ok (pass_result n)).
Definition raising_plugin (n : string) (ph : PlanePhase) (prio : Z) : PlaneClass :=
  mkPlaneClass (mkPlaneConfig n ph true prio "block") (fun _ _ _ => Exn "RuntimeError").

(** A post-compliance plugin that files its passing result under the name
    of the built-in compliance check. *)
Definition namesake_plugin : PlaneClass :=
  mkPlaneClass (mkPlaneConfig "shadow" POST_COMPLIANCE true 100 "block")
    (fun _ _ _ => Ok (pass_result "compliance")).

Definition registry_of (classes : list PlaneClass) : PlaneRegistry :=
  foldl (fun r c => snd (register r c false)) empty_registry classes.

(** A guard whose built-in checks return fixed verdicts; the identity check
    raises for a session without user id. *)
Definition guard_with (identity_ok economics_ok compliance_ok : bool)
    (classes : list PlaneClass) : AG.t :=
  AG.mk (fun s => if decide (user_id s = "") then Exn "KeyError"
                  else Ok (verdict "identity" identity_ok))
        (fun _ => Ok (pass_result "intent"))
        (fun _ _ => Ok (pass_result "context"))
        (fun _ => Ok (verdict "economics" economics_ok))
        (fun _ => Ok (verdict "compliance" compliance_ok))
        (registry_of classes) ∅ true [].

Definition sample_session : Session := mkSession "u1" "fp" 100 0 [].
Definition anonymous_session : Session := mkSession "" "fp" 100 0 [].

Definition full_context (s : Session) : string := "".
Definition notice : string := "Please slow down.".

(** The verdict of an evaluation: action and [allowed], if it returned. *)
Definition verdict_of {W} (r : Res Decision * W) : option (Action * bool) :=
  match fst r with
  | Ok d => Some (action d, allowed d)
  | Exn _ => None
  end.

Definition results_of {W} (r : Res Decision * W) : gmap string PlaneResult :=
  match fst r with
  | Ok d => plane_results d
  | Exn _ => ∅
  end.

(** A schedule in which every step sees the same clock reading. *)
Definition schedule_at (now : Q) (order : list nat) : list (nat * Q) :=
  (fun i => (i, now)) <$> order.

End Samples.

(** * Properties *)

Section SerializationFacts.
Import Store.

Lemma to_dict_dom (d : SessionData) : dom (to_dict d) = field_names.
Proof.
  unfold to_dict, field_names.
  rewrite !dom_insert_L, dom_empty_L. set_solver.
Qed.

Lemma from_dict_to_dict (now : Q) (d : SessionData) : from_dict now (to_dict d) = Ok d.
Proof.
  unfold from_dict.
  rewrite bool_decide_eq_true_2 by (rewrite to_dict_dom; done).
  destruct d; reflexivity.
Qed.

Lemma from_dict_unknown_key (now : Q) (data : gmap string JVal) (k : string) :
  k ∈ dom data → k ∉ field_names →
  from_dict now data = Exn "TypeError: unexpected keyword argument".
Proof.
  intros Hin Hout. unfold from_dict.
  rewrite bool_decide_eq_false_2; [done | set_solver].
Qed.

End SerializationFacts.


(** C7, as stated, fails: a serialized record that carries one field the
    dataclass does not declare makes [from_dict] (and [from_json]) raise. *)
Lemma from_dict_extra_field_raises :
  Store.from_dict 0 (<["device" := JStr "phone"]> (Store.to_dict Samples.sample_data))
    = Exn "TypeError: unexpected keyword argument"
  ∧ Store.from_json 0 (JObj (<["device" := JStr "phone"]> (Store.to_dict Samples.sample_data)))
    = Exn "TypeError: unexpected keyword argument".
Proof. split; vm_compute; reflexivity. Qed.

(** C7 (amended): serializing a snapshot with [to_dict] or [to_json] and
    reading it back with [from_dict] or [from_json] reproduces every field;
    a record that contains any key outside the eight declared fields is
    rejected with a [TypeError] by both readers. *)
Theorem session_data_round_trip (now : Q) (d : Store.SessionData)
    (data : gmap string JVal) (k : string) :
  k ∈ dom data → k ∉ Store.field_names →
  Store.from_dict now (Store.to_dict d) = Ok d
  ∧ Store.from_json now (Store.to_json d) = Ok d
  ∧ Store.from_dict now data = Exn "TypeError: unexpected keyword argument"
  ∧ Store.from_json now (JObj data) = Exn "TypeError: unexpected keyword argument".
Proof.
  intros Hin Hout.
  pose proof (from_dict_to_dict now d) as Hrt.
  pose proof (from_dict_unknown_key now data k Hin Hout) as Hbad.
  repeat split; simpl; assumption.
Qed.

Lemma session_data_round_trip_witness :
  Store.from_dict 0 (Store.to_dict Samples.sample_data) = Ok Samples.sample_data
  ∧ Store.from_json 0 (Store.to_json Samples.sample_data) = Ok Samples.sample_data
  ∧ Store.from_dict 0 (<["device" := JStr "phone"]> (Store.to_dict Samples.sample_data))
      = Exn "TypeError: unexpected keyword argument"
  ∧ Store.from_json 0 (JObj (<["device" := JStr "phone"]> (Store.to_dict Samples.sample_data)))
      = Exn "TypeError: unexpected keyword argument".
Proof.
  apply (session_data_round_trip 0 Samples.sample_data
           (<["device" := JStr "phone"]> (Store.to_dict Samples.sample_data)) "device").
  - vm_compute. reflexivity.
  - vm_compute. intros H. discriminate H.
Defined.

Section StoreFacts.

(** In-memory [set] always succeeds and stores the snapshot with the expiry
    computed from the effective time-to-live. *)
Lemma memory_set_stores (clk : Clock) (uid : string) (data : Store.SessionData)
    (ttl : option Z) (st : IM.t) :
  fst (IM.set clk uid data ttl st) = true
  ∧ IM.expiry_of uid (snd (IM.set clk uid data ttl st))
    = Some (match effective_ttl ttl (IM._default_ttl st) with
            | Some n => if truthy n then Some (utcnow clk + inject_Z n)%Q else None
            | None => None
            end).
Proof.
  unfold IM.set, IM.expiry_of; simpl. split; [reflexivity|].
  rewrite lookup_insert_eq. reflexivity.
Qed.

Lemma redis_live_insert (now : Z) (key : string) (v : JVal) (e : option Z)
    (db : RS.keyspace) :
  RS.expired now e = false →
  RS.live now key (<[key := (v, e)]> db) = Some (v, e).
Proof.
  intros He. unfold RS.live. rewrite lookup_insert_eq, He. reflexivity.
Qed.

Lemma redis_not_expired_later (now n : Z) : (0 < n)%Z → RS.expired now (Some (now + n)%Z) = false.
Proof. intros Hn. unfold RS.expired. apply Z.ltb_ge. lia. Qed.

End StoreFacts.

(** C8, as stated, fails in three ways: with a store-wide [default_ttl] a
    [set] without [ttl] does get an expiry; a [ttl] of 0 gives no expiry
    rather than [now + 0]; and the Redis adapter rejects a negative [ttl]
    without storing anything. *)
Lemma set_expiry_counterexample :
  IM.expiry_of "u1" (snd (IM.set (mkClock 10 10) "u1" Samples.sample_data None (IM.init (Some 3600%Z))))
    = Some (Some (10 + inject_Z 3600)%Q)
  ∧ IM.expiry_of "u1" (snd (IM.set (mkClock 10 10) "u1" Samples.sample_data (Some 0%Z) (IM.init None)))
    = Some None
  ∧ RS.set (mkClock 10 10) "u1" Samples.sample_data (Some (-5)%Z) (RS.mk ∅ "s:" None)
    = (false, RS.mk ∅ "s:" None).
Proof. repeat split. Qed.

(** C8 (amended): [set] works with the effective time-to-live, [ttl] when
    given and the store's [default_ttl] otherwise.  When that is [None] or 0
    the entry is stored without expiry; when it is another integer the
    in-memory store sets the expiry to now + ttl; the Redis store sets it to
    now + ttl for a positive ttl and, for a negative one, reports failure and
    stores nothing.  Whatever expiry the key had before is replaced. *)
Theorem set_expiry_rule (clk : Clock) (uid : string) (data : Store.SessionData)
    (ttl : option Z) (m : IM.t) (r : RS.t) :
  (effective_ttl ttl (IM._default_ttl m) = None
     ∨ effective_ttl ttl (IM._default_ttl m) = Some 0%Z →
   fst (IM.set clk uid data ttl m) = true
   ∧ IM.expiry_of uid (snd (IM.set clk uid data ttl m)) = Some None)
  ∧ (∀ n, effective_ttl ttl (IM._default_ttl m) = Some n → n ≠ 0%Z →
     fst (IM.set clk uid data ttl m) = true
     ∧ IM.expiry_of uid (snd (IM.set clk uid data ttl m))
       = Some (Some (utcnow clk + inject_Z n)%Q))
  ∧ (effective_ttl ttl (RS._default_ttl r) = None
       ∨ effective_ttl ttl (RS._default_ttl r) = Some 0%Z →
     fst (RS.set clk uid data ttl r) = true
     ∧ RS.expiry_of clk uid (snd (RS.set clk uid data ttl r)) = Some None)
  ∧ (∀ n, effective_ttl ttl (RS._default_ttl r) = Some n → (0 < n)%Z →
     fst (RS.set clk uid data ttl r) = true
     ∧ RS.expiry_of clk uid (snd (RS.set clk uid data ttl r))
       = Some (Some (server_time clk + n)%Z))
  ∧ (∀ n, effective_ttl ttl (RS._default_ttl r) = Some n → (n < 0)%Z →
     RS.set clk uid data ttl r = (false, r)).
Proof.
  pose proof (memory_set_stores clk uid data ttl m) as [Hok Hexp].
  split; [|split; [|split; [|split]]].
  - intros H. split; [exact Hok|]. rewrite Hexp.
    destruct H as [-> | ->]; reflexivity.
  - intros n H Hn. split; [exact Hok|]. rewrite Hexp, H. unfold truthy.
    destruct (Z.eqb_spec n 0); [contradiction | reflexivity].
  - intros H. unfold RS.set, RS.expiry_of.
    destruct H as [-> | ->]; simpl; unfold RS.redis_set;
      rewrite redis_live_insert; auto.
  - intros n H Hn. unfold RS.set, RS.expiry_of. rewrite H.
    unfold truthy, RS.redis_setex.
    destruct (Z.eqb_spec n 0); [lia|]. simpl.
    destruct (Z.ltb_spec 0 n); [|lia]. simpl.
    rewrite redis_live_insert; [auto | by apply redis_not_expired_later].
  - intros n H Hn. unfold RS.set. rewrite H. unfold truthy, RS.redis_setex.
    destruct (Z.eqb_spec n 0); [lia|]. simpl.
    destruct (Z.ltb_spec 0 n); [lia | reflexivity].
Qed.

Lemma set_expiry_rule_witness :
  IM.expiry_of "u1" (snd (IM.set (mkClock 10 10) "u1" Samples.sample_data (Some 60%Z) (IM.init None)))
    = Some (Some (10 + inject_Z 60)%Q)
  ∧ RS.expiry_of (mkClock 10 10) "u1"
      (snd (RS.set (mkClock 10 10) "u1" Samples.sample_data None (RS.mk ∅ "s:" (Some 86400%Z))))
    = Some (Some (10 + 86400)%Z).
Proof.
  pose proof (set_expiry_rule (mkClock 10 10) "u1" Samples.sample_data (Some 60%Z)
                (IM.init None) (RS.mk ∅ "s:" None)) as (_ & Hm & _).
  pose proof (set_expiry_rule (mkClock 10 10) "u1" Samples.sample_data None
                (IM.init None) (RS.mk ∅ "s:" (Some 86400%Z))) as (_ & _ & _ & Hr & _).
  split.
  - apply (Hm 60%Z); [reflexivity | lia].
  - apply (Hr 86400%Z); [reflexivity | lia].
Defined.

Section AtomicUpdateFacts.

(** An absent key: the inherited defaults return [False] and leave the
    in-memory store as it is. *)
Lemma memory_update_absent (clk : Clock) (uid : string) (n : Z) (st : IM.t) :
  IM._store st !! uid = None →
  IM.update_trust clk uid n st = (false, st)
  ∧ IM.increment_tokens clk uid n st = (false, st).
Proof.
  intros Hnone.
  unfold IM.update_trust, IM.increment_tokens,
    Store.base_update_trust, Store.base_increment_tokens; simpl.
  unfold IM.get. rewrite Hnone. split; reflexivity.
Qed.

Lemma with_redis_same (st : RS.t) : RS.with_redis (RS._redis st) st = st.
Proof. destruct st; reflexivity. Qed.

(** An absent key: both scripts return 0, the adapter reports [False] and
    the keyspace is untouched. *)
Lemma redis_update_absent (clk : Clock) (uid : string) (n : Z) (st : RS.t) :
  RS.live (server_time clk) (RS._key st uid) (RS._redis st) = None →
  RS.update_trust clk uid n st = (false, st)
  ∧ RS.increment_tokens clk uid n st = (false, st).
Proof.
  intros Hnone.
  unfold RS.update_trust, RS.increment_tokens, RS.lua_update_trust,
    RS.lua_increment_tokens, RS.redis_get.
  rewrite Hnone; simpl. rewrite with_redis_same. split; reflexivity.
Qed.

(** The write-back of the scripts on a live key: a key with time left keeps
    its deadline, a key without expiry stays without. *)
Lemma lua_write_back_keeps_expiry (now : Z) (key : string) (old : JVal)
    (e : option Z) (session : gmap string JVal) (db : RS.keyspace) :
  RS.live now key db = Some (old, e) →
  (∀ t, e = Some t → (now < t)%Z) →
  RS.lua_write_back now key session db = Ok (<[key := (JObj session, e)]> db).
Proof.
  intros Hlive Hleft. unfold RS.lua_write_back, RS.redis_ttl. rewrite Hlive.
  destruct e as [t|].
  - specialize (Hleft t eq_refl).
    destruct (Z.ltb_spec 0 (t - now)); [|lia].
    unfold RS.redis_setex.
    destruct (Z.ltb_spec 0 (t - now)); [|lia].
    do 4 f_equal. lia.
  - reflexivity.
Qed.

(** At the deadline itself the key is still live but its remaining time is
    0, and the write-back stores it without any expiry. *)
Lemma lua_write_back_at_deadline (now : Z) (key : string) (old : JVal)
    (session : gmap string JVal) (db : RS.keyspace) :
  db !! key = Some (old, Some now) →
  RS.lua_write_back now key session db = Ok (<[key := (JObj session, None)]> db).
Proof.
  intros Hkey. unfold RS.lua_write_back, RS.redis_ttl, RS.live, RS.expired.
  rewrite Hkey, Z.ltb_irrefl, Z.sub_diag. reflexivity.
Qed.

End AtomicUpdateFacts.

(** C3 at a failing input: an in-memory session stored with a time-to-live
    of 60 seconds loses its expiry when [update_trust] or
    [increment_tokens] runs (store without default), and is pushed to
    now + default_ttl when the store has a default; the scripts of the
    Redis adapter keep the deadline in the same situation. *)
Theorem memory_update_resets_expiry :
  let clk0 := mkClock 0 0 in
  let clk1 := mkClock 1 1 in
  let m := snd (IM.set clk0 "u1" Samples.sample_data (Some 60%Z) (IM.init None)) in
  let m' := snd (IM.set clk0 "u1" Samples.sample_data (Some 60%Z) (IM.init (Some 3600%Z))) in
  let r := snd (RS.set clk0 "u1" Samples.sample_data (Some 60%Z) (RS.mk ∅ "s:" None)) in
  IM.expiry_of "u1" m = Some (Some (0 + inject_Z 60)%Q)
  ∧ fst (IM.update_trust clk1 "u1" 50 m) = true
  ∧ IM.expiry_of "u1" (snd (IM.update_trust clk1 "u1" 50 m)) = Some None
  ∧ fst (IM.increment_tokens clk1 "u1" 5 m) = true
  ∧ IM.expiry_of "u1" (snd (IM.increment_tokens clk1 "u1" 5 m)) = Some None
  ∧ IM.expiry_of "u1" (snd (IM.update_trust clk1 "u1" 50 m'))
    = Some (Some (1 + inject_Z 3600)%Q)
  ∧ RS.expiry_of clk1 "u1" r = Some (Some 60%Z)
  ∧ RS.expiry_of clk1 "u1" (snd (RS.update_trust clk1 "u1" 50 r)) = Some (Some 60%Z)
  ∧ RS.expiry_of clk1 "u1" (snd (RS.increment_tokens clk1 "u1" 5 r)) = Some (Some 60%Z).
Proof. vm_compute. repeat split. Qed.

(** C10: when the key is live and the counter after the increment is not
    positive, the Redis [increment_tokens] returns [False] although the
    stored record now holds the new counter and the new [last_seen]. *)
Theorem redis_increment_nonpositive_total (clk : Clock) (uid : string) (count : Z)
    (st : RS.t) (session : gmap string JVal) (e : option Z) (old : Z) :
  RS.live (server_time clk) (RS._key st uid) (RS._redis st) = Some (JObj session, e) →
  RS.lua_counter (session !! "tokens_used") = Ok old →
  (old + count ≤ 0)%Z →
  fst (RS.increment_tokens clk uid count st) = false
  ∧ ∃ session',
      RS.record_of clk uid (snd (RS.increment_tokens clk uid count st))
        = Some (JObj session')
      ∧ session' !! "tokens_used" = Some (JInt (old + count))
      ∧ session' !! "last_seen" = Some (JNum (utcnow clk)).
Proof.
  intros Hlive Hold Htotal.
  unfold RS.increment_tokens, RS.lua_increment_tokens, RS.redis_get.
  rewrite Hlive; simpl. rewrite Hold.
  set (session' := <["last_seen" := JNum (utcnow clk)]>
                     (<["tokens_used" := JInt (old + count)]> session)).
  assert (Hw : ∃ e', RS.lua_write_back (server_time clk) (RS._key st uid) session' (RS._redis st)
               = Ok (<[RS._key st uid := (JObj session', e')]> (RS._redis st))
               ∧ RS.expired (server_time clk) e' = false).
  { unfold RS.lua_write_back, RS.redis_ttl. rewrite Hlive.
    destruct e as [t|].
    - destruct (Z.ltb_spec 0 (t - server_time clk)).
      + unfold RS.redis_setex. destruct (Z.ltb_spec 0 (t - server_time clk)); [|lia].
        eexists; split; [reflexivity|]. apply redis_not_expired_later; lia.
      + exists None; split; reflexivity.
    - exists None; split; reflexivity. }
  destruct Hw as (e' & -> & Hlive'). simpl.
  split.
  - apply Z.ltb_ge; exact Htotal.
  - exists session'. unfold RS.record_of, RS.redis_get; simpl.
    rewrite redis_live_insert by exact Hlive'. simpl.
    split; [reflexivity|]. subst session'. split.
    + rewrite lookup_insert_ne by done. apply lookup_insert_eq.
    + apply lookup_insert_eq.
Qed.


Lemma redis_increment_nonpositive_total_witness :
  fst (RS.increment_tokens (mkClock 3 3) "u1" 0 Samples.zero_counter_store) = false
  ∧ ∃ session',
      RS.record_of (mkClock 3 3) "u1"
        (snd (RS.increment_tokens (mkClock 3 3) "u1" 0 Samples.zero_counter_store))
        = Some (JObj session')
      ∧ session' !! "tokens_used" = Some (JInt (0 + 0))
      ∧ session' !! "last_seen" = Some (JNum (utcnow (mkClock 3 3))).
Proof.
  apply (redis_increment_nonpositive_total (mkClock 3 3) "u1" 0 Samples.zero_counter_store
           (Store.to_dict Samples.zero_counter_data) None 0).
  - vm_compute. reflexivity.
  - vm_compute. reflexivity.
  - lia.
Defined.

Section RegistryFacts.
Import Types Plugins.
Context {V : Type}.

Lemma dict_get_set_eq (k : string) (v : V) (d : list (string * V)) :
  dict_get k (dict_set k v d) = Some v.
Proof.
  induction d as [|[k' v'] d IH]; simpl.
  - by rewrite decide_True.
  - destruct (decide (k = k')) as [->|Hne]; simpl.
    + by rewrite decide_True.
    + by rewrite decide_False.
Qed.

Lemma dict_get_set_ne (k k' : string) (v : V) (d : list (string * V)) :
  k' ≠ k → dict_get k' (dict_set k v d) = dict_get k' d.
Proof.
  intros Hne. induction d as [|[k0 v0] d IH]; simpl.
  - by rewrite decide_False.
  - destruct (decide (k = k0)) as [->|Hne0]; simpl.
    + by rewrite !decide_False.
    + destruct (decide (k' = k0)); [done | exact IH].
Qed.

End RegistryFacts.

(** C9: registering a class whose name is already in the registry, without
    [override], raises the duplicate-name error and leaves the registry as
    it was; with [override=True] the call succeeds, [get] of that name
    returns the new class from then on, and other names are unaffected. *)
Theorem register_duplicate_and_override (r : Plugins.PlaneRegistry)
    (c old : Plugins.PlaneClass) :
  Plugins.dict_get (Plugins.name (Plugins.get_config c)) (Plugins._local_registry r)
    = Some old →
  Plugins.register r c false = (Exn "ValueError: plane already registered", r)
  ∧ fst (Plugins.register r c true) = Ok c
  ∧ Plugins.get (snd (Plugins.register r c true)) (Plugins.name (Plugins.get_config c))
    = Some c
  ∧ ∀ n, n ≠ Plugins.name (Plugins.get_config c) →
      Plugins.get (snd (Plugins.register r c true)) n = Plugins.get r n.
Proof.
  intros Hold. unfold Plugins.register. rewrite Hold. simpl.
  split; [reflexivity|]. split; [reflexivity|]. split.
  - unfold Plugins.get; simpl. by rewrite dict_get_set_eq.
  - intros n Hne. unfold Plugins.get; simpl. by rewrite dict_get_set_ne.
Qed.

Lemma register_duplicate_and_override_witness :
  let r := snd (Plugins.register Plugins.empty_registry Samples.PlaneA false) in
  Plugins.register r Samples.PlaneB false = (Exn "ValueError: plane already registered", r)
  ∧ fst (Plugins.register r Samples.PlaneB true) = Ok Samples.PlaneB
  ∧ Plugins.get (snd (Plugins.register r Samples.PlaneB true)) "duplicate" = Some Samples.PlaneB
  ∧ ∀ n, n ≠ "duplicate" →
      Plugins.get (snd (Plugins.register r Samples.PlaneB true)) n = Plugins.get r n.
Proof.
  apply (register_duplicate_and_override
           (snd (Plugins.register Plugins.empty_registry Samples.PlaneA false)) Samples.PlaneB Samples.PlaneA).
  reflexivity.
Defined.


Section PipelineFacts.
Import Types Plugins.

Lemma run_plugins_eq (ph : PlanePhase) (prompt : string)
    (pr : gmap string PlaneResult) (g : AG.t) (s : Session) :
  AG._run_plugins ph prompt pr (g, s)
  = (Ok (AG.phase_outcomes g ph prompt s pr), (AG.after_phase g ph, s)).
Proof.
  unfold AG._run_plugins, AG.phase_outcomes, AG.phase_plugins, AG.after_phase.
  simpl. destruct (AG._get_plugins_for_phase g ph); reflexivity.
Qed.

Lemma after_phase_eq (g : AG.t) (ph : PlanePhase) :
  AG.after_phase g ph
  = AG.with_instances
      (snd (AG.collect_plugins (get_by_phase (AG._registry g) ph) (AG._plugin_instances g))) g.
Proof.
  unfold AG.after_phase, AG._get_plugins_for_phase.
  destruct (AG.collect_plugins _ _); reflexivity.
Qed.

Lemma after_phase_identity g ph : AG._identity_plane (AG.after_phase g ph) = AG._identity_plane g.
Proof. by rewrite after_phase_eq. Qed.
Lemma after_phase_intent g ph : AG._intent_plane (AG.after_phase g ph) = AG._intent_plane g.
Proof. by rewrite after_phase_eq. Qed.
Lemma after_phase_context g ph : AG._context_plane (AG.after_phase g ph) = AG._context_plane g.
Proof. by rewrite after_phase_eq. Qed.
Lemma after_phase_economics g ph : AG._economics_plane (AG.after_phase g ph) = AG._economics_plane g.
Proof. by rewrite after_phase_eq. Qed.
Lemma after_phase_compliance g ph : AG._compliance_plane (AG.after_phase g ph) = AG._compliance_plane g.
Proof. by rewrite after_phase_eq. Qed.
Lemma after_phase_registry g ph : AG._registry (AG.after_phase g ph) = AG._registry g.
Proof. by rewrite after_phase_eq. Qed.

(** Lazy creation only ever adds instances of registered classes. *)
Lemma collect_plugins_classes (P : PlaneClass → Prop) (classes : list PlaneClass) :
  ∀ insts : gmap string BasePlane,
    (∀ c, c ∈ classes → P c) →
    (∀ n p, insts !! n = Some p → P (plane_class p)) →
    (∀ p, p ∈ fst (AG.collect_plugins classes insts) → P (plane_class p))
    ∧ (∀ n p, snd (AG.collect_plugins classes insts) !! n = Some p → P (plane_class p)).
Proof.
  induction classes as [|c rest IH]; intros insts Hcls Hinst; simpl.
  - split; [intros p Hp; inversion Hp | exact Hinst].
  - set (insts1 := match insts !! name (get_config c) with
                   | Some _ => insts
                   | None => <[name (get_config c) := new_plane c]> insts
                   end).
    assert (Hinst1 : ∀ n p, insts1 !! n = Some p → P (plane_class p)).
    { subst insts1. intros n p. destruct (insts !! name (get_config c)) eqn:E.
      - apply Hinst.
      - rewrite lookup_insert. case_decide.
        + intros [= <-]. simpl. apply Hcls. left.
        + apply Hinst. }
    destruct (IH insts1) as [IHp IHi].
    { intros c' Hc'. apply Hcls. by right. }
    { exact Hinst1. }
    destruct (AG.collect_plugins rest insts1) as [plugins insts2]; simpl in *.
    split; [|exact IHi].
    intros p Hp.
    destruct (plane_enabled (default (new_plane c) (insts1 !! name (get_config c)))).
    + apply elem_of_cons in Hp as [-> | Hp]; [|by apply IHp].
      destruct (insts1 !! name (get_config c)) eqn:E; simpl.
      * by eapply Hinst1.
      * apply Hcls. left.
    + by apply IHp.
Qed.

Lemma plugins_avoid_after (k : string) (g : AG.t) (ph : PlanePhase) :
  AG.plugins_avoid k g → AG.plugins_avoid k (AG.after_phase g ph).
Proof.
  intros [Hreg Hinst]. split.
  - rewrite after_phase_registry. exact Hreg.
  - rewrite after_phase_eq; simpl.
    apply (collect_plugins_classes (AG.avoids k)); [apply Hreg | exact Hinst].
Qed.

Lemma phase_outcomes_avoid (k : string) (g : AG.t) (ph : PlanePhase)
    (prompt : string) (s : Session) (pr : gmap string PlaneResult) (r : PlaneResult) :
  AG.plugins_avoid k g →
  Ok r ∈ AG.phase_outcomes g ph prompt s pr → plane_name r ≠ k.
Proof.
  intros [Hreg Hinst] Hin.
  unfold AG.phase_outcomes in Hin. apply list_elem_of_fmap in Hin as (p & Hr & Hp).
  unfold AG.phase_plugins, AG._get_plugins_for_phase in Hp.
  pose proof (collect_plugins_classes (AG.avoids k)
                (get_by_phase (AG._registry g) ph) (AG._plugin_instances g)
                (Hreg ph) Hinst) as [Hp' _].
  destruct (AG.collect_plugins _ _) as [plugins insts]; simpl in *.
  symmetry in Hr. exact (Hp' p Hp _ _ _ _ Hr).
Qed.

Lemma record_post_lookup_ne (k : string) (outs : list (Res PlaneResult)) :
  ∀ pr : gmap string PlaneResult,
    (∀ r, Ok r ∈ outs → plane_name r ≠ k) →
    AG.record_post outs pr !! k = pr !! k.
Proof.
  induction outs as [|[r|e] outs IH]; intros pr Hne; simpl.
  - reflexivity.
  - rewrite IH by (intros r' Hr'; apply Hne; by right).
    rewrite lookup_insert_ne; [done | apply Hne; left].
  - apply IH. intros r' Hr'. apply Hne. by right.
Qed.

End PipelineFacts.

Section FailurePolicy.
Import Types Plugins.
Variable get_full_context : Session → string.
Variable degrade_response : string.

(** One built-in check whose outcome [H] and verdict [Hp] are known,
    followed by the fan-out of the next phase. *)
Local Ltac plane_step H Hp :=
  cbn beta iota zeta delta [fst snd];
  rewrite ?after_phase_identity, ?after_phase_intent, ?after_phase_context,
    ?after_phase_economics, ?after_phase_compliance;
  rewrite H; cbn beta iota; rewrite ?Hp; cbn beta iota delta [negb];
  rewrite ?run_plugins_eq; cbn beta iota zeta delta [fst snd].

Local Ltac enter_pipeline Hpre :=
  unfold AG.inspect, AG.bind, AG._run_sync_plane, AG.session_increment_tokens;
  rewrite run_plugins_eq;
  destruct (AG.record_pre _ _) as [pr0 o]; cbn [snd] in Hpre; subst o.

(** C1 (amended): in an evaluation that reaches the built-in checks (no
    pre-identity plugin has blocked the request): a failing identity check
    gives BLOCK with [allowed] false; a failing economics check after
    passing identity, intent and context gives DEGRADE, never BLOCK; and when
    only compliance fails the decision is still ALLOW, and its
    [plane_results] hold the compliance result under ["compliance"] provided
    no plugin of the guard files a result under that name. *)
Theorem builtin_failure_policy (g : AG.t) (s : Session) (tid prompt : string) :
  snd (AG.record_pre (AG.phase_outcomes g PRE_IDENTITY prompt s ∅) ∅) = None →
  (∀ ri, AG._identity_plane g s = Ok ri → passed ri = false →
     ∃ d w, AG.inspect get_full_context degrade_response tid prompt (g, s) = (Ok d, w)
            ∧ action d = BLOCK ∧ allowed d = false)
  ∧ (∀ ri rn rc re,
       AG._identity_plane g s = Ok ri → passed ri = true →
       AG._intent_plane g prompt = Ok rn → passed rn = true →
       AG._context_plane g (get_full_context s +:+ " " +:+ prompt) (history s) = Ok rc →
       passed rc = true →
       AG._economics_plane g (increment_tokens (Z.of_nat (String.length prompt)) s) = Ok re →
       passed re = false →
     ∃ d w, AG.inspect get_full_context degrade_response tid prompt (g, s) = (Ok d, w)
            ∧ action d = DEGRADE)
  ∧ (∀ ri rn rc re rm,
       AG._identity_plane g s = Ok ri → passed ri = true →
       AG._intent_plane g prompt = Ok rn → passed rn = true →
       AG._context_plane g (get_full_context s +:+ " " +:+ prompt) (history s) = Ok rc →
       passed rc = true →
       AG._economics_plane g (increment_tokens (Z.of_nat (String.length prompt)) s) = Ok re →
       passed re = true →
       AG._compliance_plane g prompt = Ok rm → passed rm = false →
     ∃ d w, AG.inspect get_full_context degrade_response tid prompt (g, s) = (Ok d, w)
            ∧ action d = ALLOW
            ∧ (AG.plugins_avoid "compliance" g →
               plane_results d !! "compliance" = Some rm)).
Proof.
  intros Hpre.
  split; [|split].
  - intros ri Hid Hfail.
    enter_pipeline Hpre.
    plane_step Hid Hfail.
    eexists _, _. split; [reflexivity|]. split; reflexivity.
  - intros ri rn rc re Hid Hpi Hin Hpn Hctx Hpc Hec Hfail.
    enter_pipeline Hpre.
    plane_step Hid Hpi. plane_step Hin Hpn. plane_step Hctx Hpc.
    plane_step Hec Hfail.
    eexists _, _. split; [reflexivity|]. reflexivity.
  - intros ri rn rc re rm Hid Hpi Hin Hpn Hctx Hpc Hec Hpe Hcm Hfail.
    enter_pipeline Hpre.
    plane_step Hid Hpi. plane_step Hin Hpn. plane_step Hctx Hpc.
    plane_step Hec Hpe. plane_step Hcm Hfail.
    eexists _, _. split; [reflexivity|]. split; [reflexivity|].
    intros Havoid. unfold create_allow; cbn [plane_results].
    rewrite record_post_lookup_ne; [apply lookup_insert_eq|].
    intros r Hr. eapply phase_outcomes_avoid; [|exact Hr].
    do 5 apply plugins_avoid_after. exact Havoid.
Qed.

End FailurePolicy.

Lemma plugins_avoid_sample (i e c : bool) :
  AG.plugins_avoid "compliance"
    (Samples.guard_with i e c
       [Samples.passing_plugin "extra" Plugins.POST_COMPLIANCE 10;
        Samples.failing_plugin "kw" Plugins.POST_INTENT "block"]).
Proof.
  split.
  - intros ph cl Hin prompt s results r Hr.
    destruct ph; vm_compute in Hin;
      repeat (apply elem_of_cons in Hin as [-> | Hin]);
      try (inversion Hin; fail);
      vm_compute in Hr; injection Hr as <-; discriminate.
  - intros n p Hn. simpl in Hn. rewrite lookup_empty in Hn. discriminate Hn.
Qed.

(** C1, as stated, fails: with every other built-in check passing and
    compliance failing, a post-compliance plugin that files its own passing
    result under the name ["compliance"] replaces the entry: the decision is
    ALLOW and the failed compliance result is not in its [plane_results]. *)
Lemma compliance_result_overwritten :
  let g := Samples.guard_with true true false [Samples.namesake_plugin] in
  let out :=
    AG.inspect Samples.full_context Samples.notice "t1" "Hello"
      (g, Samples.sample_session) in
  AG._compliance_plane g "Hello" = Ok (Samples.fail_result "compliance")
  ∧ Types.passed (Samples.fail_result "compliance") = false
  ∧ Samples.verdict_of out = Some (Types.ALLOW, true)
  ∧ Samples.results_of out !! "compliance" = Some (Samples.pass_result "compliance")
  ∧ Samples.fail_result "compliance" ∉ (map_to_list (Samples.results_of out)).*2.
Proof.
  vm_compute. repeat split.
  intros H. repeat (apply elem_of_cons in H as [H | H]; [discriminate H|]).
  inversion H.
Qed.

Lemma builtin_failure_policy_witness :
  let plugins := [Samples.passing_plugin "extra" Plugins.POST_COMPLIANCE 10;
                  Samples.failing_plugin "kw" Plugins.POST_INTENT "block"] in
  (∃ d w, AG.inspect Samples.full_context Samples.notice "t1" "Hello"
            (Samples.guard_with false true true plugins, Samples.sample_session) = (Ok d, w)
          ∧ Types.action d = Types.BLOCK ∧ Types.allowed d = false)
  ∧ (∃ d w, AG.inspect Samples.full_context Samples.notice "t1" "Hello"
              (Samples.guard_with true false true plugins, Samples.sample_session) = (Ok d, w)
            ∧ Types.action d = Types.DEGRADE)
  ∧ (∃ d w, AG.inspect Samples.full_context Samples.notice "t1" "Hello"
              (Samples.guard_with true true false plugins, Samples.sample_session) = (Ok d, w)
            ∧ Types.action d = Types.ALLOW
            ∧ Types.plane_results d !! "compliance" = Some (Samples.fail_result "compliance")).
Proof.
  intros plugins.
  split; [|split].
  - apply (builtin_failure_policy Samples.full_context Samples.notice
             (Samples.guard_with false true true plugins) Samples.sample_session "t1" "Hello"
             eq_refl)
      with (ri := Samples.fail_result "identity"); reflexivity.
  - apply (builtin_failure_policy Samples.full_context Samples.notice
             (Samples.guard_with true false true plugins) Samples.sample_session "t1" "Hello"
             eq_refl)
      with (ri := Samples.pass_result "identity") (rn := Samples.pass_result "intent")
           (rc := Samples.pass_result "context") (re := Samples.fail_result "economics");
      reflexivity.
  - pose proof (builtin_failure_policy Samples.full_context Samples.notice
             (Samples.guard_with true true false plugins) Samples.sample_session "t1" "Hello"
             eq_refl) as (_ & _ & H).
    destruct (H (Samples.pass_result "identity") (Samples.pass_result "intent")
                (Samples.pass_result "context") (Samples.pass_result "economics")
                (Samples.fail_result "compliance")
                eq_refl eq_refl eq_refl eq_refl eq_refl eq_refl eq_refl eq_refl
                eq_refl eq_refl) as (d & w & Hrun & Hact & Hrec).
    exists d, w. split; [exact Hrun|]. split; [exact Hact|].
    apply Hrec, plugins_avoid_sample.
Defined.

(** C2 at failing inputs: the pipeline never reads [fail_action].  A
    post-intent plugin configured with ["block"], and a post-context plugin
    configured with ["degrade"], fail and the decision is still ALLOW with the
    failed result on record; a pre-identity plugin configured with ["log"]
    fails and the decision is BLOCK. *)
Theorem fail_action_is_ignored :
  let run classes :=
    AG.inspect Samples.full_context Samples.notice "t1" "Hello"
      (Samples.guard_with true true true classes, Samples.sample_session) in
  Samples.verdict_of (run [Samples.failing_plugin "kw" Plugins.POST_INTENT "block"])
    = Some (Types.ALLOW, true)
  ∧ Samples.results_of (run [Samples.failing_plugin "kw" Plugins.POST_INTENT "block"]) !! "kw"
    = Some (Samples.fail_result "kw")
  ∧ Samples.verdict_of (run [Samples.failing_plugin "quota" Plugins.POST_CONTEXT "degrade"])
    = Some (Types.ALLOW, true)
  ∧ Samples.verdict_of (run [Samples.failing_plugin "probe" Plugins.PRE_IDENTITY "log"])
    = Some (Types.BLOCK, false).
Proof. vm_compute. repeat split. Qed.

(** C5 at a failing input: in a batch of two, the identity check raises for
    the first request; the second request alone evaluates to ALLOW, yet the
    batch call returns no list at all but that exception. *)
Theorem batch_fault_discards_siblings :
  let g := Samples.guard_with true true true [] in
  Samples.verdict_of
    (AG.inspect Samples.full_context Samples.notice "t2" "Hello" (g, Samples.sample_session))
    = Some (Types.ALLOW, true)
  ∧ fst (AG.inspect_batch Samples.full_context Samples.notice
           [("t1", "Hello", Samples.anonymous_session);
            ("t2", "Hello", Samples.sample_session)] g)
    = Exn "KeyError".
Proof. vm_compute. split; reflexivity. Qed.


Section FanOut.
Import Types Plugins.

Lemma record_post_app (l1 l2 : list (Res PlaneResult)) :
  ∀ pr, AG.record_post (l1 ++ l2) pr = AG.record_post l2 (AG.record_post l1 pr).
Proof.
  induction l1 as [|[r|e] l1 IH]; intros pr; simpl; [reflexivity | apply IH | apply IH].
Qed.

Lemma record_pre_skip (l1 l2 : list (Res PlaneResult)) (e : string) :
  ∀ pr, AG.record_pre (l1 ++ Exn e :: l2) pr = AG.record_pre (l1 ++ l2) pr.
Proof.
  induction l1 as [|[r|e'] l1 IH]; intros pr; simpl.
  - reflexivity.
  - destruct (passed r); [apply IH | reflexivity].
  - apply IH.
Qed.

End FanOut.

(** Within one phase: when a plugin raises, the fan-out still returns one
    outcome per enabled plugin, the siblings' outcomes being what they are
    without it, and the recording loops skip the exception. *)
Lemma plugin_fault_is_skipped (ph : Plugins.PlanePhase) (prompt : string)
    (pr : gmap string Types.PlaneResult) (g : AG.t) (s : Types.Session)
    (l1 l2 : list Plugins.BasePlane) (p : Plugins.BasePlane) (e : string) :
  AG.phase_plugins g ph = l1 ++ p :: l2 →
  Plugins.evaluate_async p prompt s pr = Exn e →
  let outcome := fun q => Plugins.evaluate_async q prompt s pr in
  fst (AG._run_plugins ph prompt pr (g, s))
    = Ok ((outcome <$> l1) ++ Exn e :: (outcome <$> l2))
  ∧ ∀ acc,
      AG.record_post (outcome <$> (l1 ++ p :: l2)) acc
        = AG.record_post (outcome <$> (l1 ++ l2)) acc
      ∧ AG.record_pre (outcome <$> (l1 ++ p :: l2)) acc
        = AG.record_pre (outcome <$> (l1 ++ l2)) acc.
Proof.
  intros Hplugins Hraise outcome.
  assert (Hout : outcome p = Exn e) by exact Hraise.
  split.
  - rewrite run_plugins_eq. unfold AG.phase_outcomes. rewrite Hplugins.
    cbn [fst]. fold outcome. rewrite fmap_app, fmap_cons, Hout. reflexivity.
  - intros acc. rewrite !fmap_app, fmap_cons, Hout. split.
    + rewrite !record_post_app. reflexivity.
    + apply record_pre_skip.
Qed.

Lemma plugin_fault_is_skipped_witness :
  let g := Samples.guard_with true true true
             [Samples.passing_plugin "a" Plugins.POST_INTENT 5;
              Samples.raising_plugin "boom" Plugins.POST_INTENT 10;
              Samples.passing_plugin "z" Plugins.POST_INTENT 50] in
  let outcome := fun q => Plugins.evaluate_async q "Hello" Samples.sample_session ∅ in
  let a := Plugins.new_plane (Samples.passing_plugin "a" Plugins.POST_INTENT 5) in
  let boom := Plugins.new_plane (Samples.raising_plugin "boom" Plugins.POST_INTENT 10) in
  let z := Plugins.new_plane (Samples.passing_plugin "z" Plugins.POST_INTENT 50) in
  fst (AG._run_plugins Plugins.POST_INTENT "Hello" ∅ (g, Samples.sample_session))
    = Ok ((outcome <$> [a]) ++ Exn "RuntimeError" :: (outcome <$> [z]))
  ∧ ∀ acc,
      AG.record_post (outcome <$> ([a] ++ boom :: [z])) acc
        = AG.record_post (outcome <$> ([a] ++ [z])) acc
      ∧ AG.record_pre (outcome <$> ([a] ++ boom :: [z])) acc
        = AG.record_pre (outcome <$> ([a] ++ [z])) acc.
Proof.
  intros g outcome a boom z.
  apply (plugin_fault_is_skipped Plugins.POST_INTENT "Hello" ∅ g Samples.sample_session
           [a] [z] boom "RuntimeError").
  - vm_compute. reflexivity.
  - reflexivity.
Defined.

Section DisabledPlugin.
Import Types Plugins.






End DisabledPlugin.

Section RaisingPlugin.
Import Types Plugins.
Variable get_full_context : Session → string.
Variable degrade_response : string.



End RaisingPlugin.


(** C4 at a failing input: two threads call [increment_tokens("u1", 1)] on
    an in-memory session whose counter is 0.  Run one after the other they
    leave 2; when the second thread runs between the first thread's read of
    [tokens_used] and its write, both calls return [True] and the counter is
    1.  Likewise a [delete] that falls between the [get] and the [set] of an
    increment is undone: the deleted session is stored again. *)
Theorem increment_tokens_loses_update :
  let sh := Interleaving.single "u1" Samples.zero_counter_data in
  let two := [Interleaving.spawn (Interleaving.IncrementTokens "u1" 1);
              Interleaving.spawn (Interleaving.IncrementTokens "u1" 1)] in
  let serial := Interleaving.run
    (Samples.schedule_at 1 [0; 0; 0; 0; 0; 1; 1; 1; 1; 1]%nat) two sh in
  let racy := Interleaving.run
    (Samples.schedule_at 1 [0; 0; 1; 1; 1; 1; 1; 0; 0; 0]%nat) two sh in
  let mixed := [Interleaving.spawn (Interleaving.IncrementTokens "u1" 1);
                Interleaving.spawn (Interleaving.Delete "u1")] in
  let undone := Interleaving.run
    (Samples.schedule_at 1 [0; 1; 0; 0; 0; 0]%nat) mixed sh in
  Interleaving.pc <$> fst serial
    = [Interleaving.Returned true; Interleaving.Returned true]
  ∧ Store.tokens_used <$> Interleaving.lookup_session "u1" (snd serial) = Some 2%Z
  ∧ Interleaving.pc <$> fst racy
    = [Interleaving.Returned true; Interleaving.Returned true]
  ∧ Store.tokens_used <$> Interleaving.lookup_session "u1" (snd racy) = Some 1%Z
  ∧ Interleaving.pc <$> fst undone
    = [Interleaving.Returned true; Interleaving.Returned true]
  ∧ Store.tokens_used <$> Interleaving.lookup_session "u1" (snd undone) = Some 1%Z.
Proof. vm_compute. repeat split. Qed.

(** ** The in-memory store *)

Section MemoryFacts.

Lemma Qgtb_false (a b : Q) : Qgtb a b = false ↔ (a <= b)%Q.
Proof.
  unfold Qgtb. rewrite negb_false_iff. apply Qle_bool_iff.
Qed.

Lemma Qgtb_true (a b : Q) : Qgtb a b = true ↔ (b < a)%Q.
Proof.
  unfold Qgtb. rewrite negb_true_iff. split.
  - intros H. apply Qnot_le_lt. intros Hle. apply Qle_bool_iff in Hle. congruence.
  - intros H. destruct (Qle_bool a b) eqn:E; [|reflexivity].
    apply Qle_bool_iff in E. exfalso. exact (Qlt_not_le _ _ H E).
Qed.

Lemma memory_get_live (clk : Clock) (uid : string) (st : IM.t)
    (d : Store.SessionData) (e : option Q) :
  IM._store st !! uid = Some (d, e) →
  IM._is_expired (utcnow clk) e = false →
  IM.get clk uid st = (Some d, st).
Proof. intros Hs He. unfold IM.get. rewrite Hs, He. reflexivity. Qed.

Lemma memory_get_expired (clk : Clock) (uid : string) (st : IM.t)
    (d : Store.SessionData) (e : option Q) :
  IM._store st !! uid = Some (d, e) →
  IM._is_expired (utcnow clk) e = true →
  IM.get clk uid st = (None, IM.mk (delete uid (IM._store st)) (IM._default_ttl st)).
Proof. intros Hs He. unfold IM.get. rewrite Hs, He. reflexivity. Qed.

End MemoryFacts.

(** X1: what was stored with a time-to-live is returned by [get] up to and
    including the deadline now + ttl, and after it [get] returns [None] and
    removes the entry. *)
Theorem memory_get_after_set (clk clk' : Clock) (uid : string)
    (data : Store.SessionData) (ttl : option Z) (st : IM.t) (n : Z) :
  effective_ttl ttl (IM._default_ttl st) = Some n → n ≠ 0%Z →
  let st1 := snd (IM.set clk uid data ttl st) in
  ((utcnow clk' <= utcnow clk + inject_Z n)%Q → IM.get clk' uid st1 = (Some data, st1))
  ∧ ((utcnow clk + inject_Z n < utcnow clk')%Q →
     fst (IM.get clk' uid st1) = None
     ∧ IM._store (snd (IM.get clk' uid st1)) !! uid = None).
Proof.
  intros Heff Hn st1.
  assert (Hs : IM._store st1 !! uid = Some (data, Some (utcnow clk + inject_Z n)%Q)).
  { subst st1. unfold IM.set; simpl. rewrite Heff. unfold truthy.
    destruct (Z.eqb_spec n 0); [contradiction|]. simpl. apply lookup_insert_eq. }
  split.
  - intros Hle. apply (memory_get_live _ _ _ _ _ Hs). simpl. by apply Qgtb_false.
  - intros Hlt. rewrite (memory_get_expired _ _ _ _ _ Hs) by (simpl; by apply Qgtb_true).
    simpl. split; [reflexivity | apply lookup_delete_eq].
Qed.

Lemma memory_get_after_set_witness :
  let st1 := snd (IM.set (mkClock 10 10) "u1" Samples.sample_data (Some 60%Z) (IM.init None)) in
  ((utcnow (mkClock 70 70) <= utcnow (mkClock 10 10) + inject_Z 60)%Q →
     IM.get (mkClock 70 70) "u1" st1 = (Some Samples.sample_data, st1))
  ∧ ((utcnow (mkClock 10 10) + inject_Z 60 < utcnow (mkClock 70 70))%Q →
     fst (IM.get (mkClock 70 70) "u1" st1) = None
     ∧ IM._store (snd (IM.get (mkClock 70 70) "u1" st1)) !! "u1" = None).
Proof.
  apply (memory_get_after_set (mkClock 10 10) (mkClock 70 70) "u1" Samples.sample_data
           (Some 60%Z) (IM.init None) 60%Z).
  - reflexivity.
  - lia.
Defined.

(** X2: once [get] or [exists] has met an expired entry, the entry is gone
    for good: every later [get] and [exists], whatever the clock then
    reads, reports the session absent. *)
Theorem memory_expired_stays_absent (clk clk' : Clock) (uid : string) (st : IM.t)
    (d : Store.SessionData) (e : Q) :
  IM._store st !! uid = Some (d, Some e) → (e < utcnow clk)%Q →
  fst (IM.get clk uid st) = None
  ∧ fst (IM.exists_ clk uid st) = false
  ∧ fst (IM.get clk' uid (snd (IM.get clk uid st))) = None
  ∧ fst (IM.exists_ clk' uid (snd (IM.get clk uid st))) = false
  ∧ fst (IM.get clk' uid (snd (IM.exists_ clk uid st))) = None
  ∧ fst (IM.exists_ clk' uid (snd (IM.exists_ clk uid st))) = false.
Proof.
  intros Hs Hlt. apply Qgtb_true in Hlt.
  unfold IM.get, IM.exists_. rewrite Hs. simpl. rewrite Hlt. simpl.
  rewrite lookup_delete_eq. repeat split.
Qed.

Lemma memory_expired_stays_absent_witness :
  let st := snd (IM.set (mkClock 0 0) "u1" Samples.sample_data (Some 60%Z) (IM.init None)) in
  fst (IM.get (mkClock 61 61) "u1" st) = None
  ∧ fst (IM.exists_ (mkClock 61 61) "u1" st) = false
  ∧ fst (IM.get (mkClock 5 5) "u1" (snd (IM.get (mkClock 61 61) "u1" st))) = None
  ∧ fst (IM.exists_ (mkClock 5 5) "u1" (snd (IM.get (mkClock 61 61) "u1" st))) = false
  ∧ fst (IM.get (mkClock 5 5) "u1" (snd (IM.exists_ (mkClock 61 61) "u1" st))) = None
  ∧ fst (IM.exists_ (mkClock 5 5) "u1" (snd (IM.exists_ (mkClock 61 61) "u1" st))) = false.
Proof.
  apply (memory_expired_stays_absent (mkClock 61 61) (mkClock 5 5) "u1"
           (snd (IM.set (mkClock 0 0) "u1" Samples.sample_data (Some 60%Z) (IM.init None)))
           Samples.sample_data (0 + inject_Z 60)%Q).
  - vm_compute. reflexivity.
  - vm_compute. reflexivity.
Defined.

(** X3: [exists] answers exactly whether [get] would return a session, and
    both leave the same store behind. *)
Theorem memory_exists_agrees_with_get (clk : Clock) (uid : string) (st : IM.t) :
  fst (IM.exists_ clk uid st) = bool_decide (is_Some (fst (IM.get clk uid st)))
  ∧ snd (IM.exists_ clk uid st) = snd (IM.get clk uid st).
Proof.
  unfold IM.exists_, IM.get.
  destruct (IM._store st !! uid) as [[d e]|]; simpl.
  - destruct (IM._is_expired (utcnow clk) e); simpl; split; try reflexivity.
  - split; reflexivity.
Qed.

(** X4: [delete] returns [True] exactly when the key is stored, expired or
    not; after it the session is absent to [get] and [exists] at any time, a
    second [delete] returns [False], and no other key is touched. *)
Theorem memory_delete_removes (clk clk' : Clock) (uid : string) (st : IM.t) :
  fst (IM.delete_ clk uid st) = bool_decide (is_Some (IM._store st !! uid))
  ∧ fst (IM.get clk' uid (snd (IM.delete_ clk uid st))) = None
  ∧ fst (IM.exists_ clk' uid (snd (IM.delete_ clk uid st))) = false
  ∧ fst (IM.delete_ clk' uid (snd (IM.delete_ clk uid st))) = false
  ∧ ∀ other, other ≠ uid →
      IM._store (snd (IM.delete_ clk uid st)) !! other = IM._store st !! other.
Proof.
  unfold IM.delete_, IM.get, IM.exists_.
  destruct (IM._store st !! uid) as [[d e]|] eqn:Hs; simpl.
  - rewrite lookup_delete_eq. repeat split.
    intros other Hne. by rewrite lookup_delete_ne.
  - rewrite Hs. repeat split.
Qed.

(** X5: an expired entry that has not been collected yet is absent to
    [exists] but still makes [delete] return [True]. *)
Theorem memory_delete_counts_expired (clk : Clock) (uid : string) (st : IM.t)
    (d : Store.SessionData) (e : Q) :
  IM._store st !! uid = Some (d, Some e) → (e < utcnow clk)%Q →
  fst (IM.exists_ clk uid st) = false ∧ fst (IM.delete_ clk uid st) = true.
Proof.
  intros Hs Hlt. apply Qgtb_true in Hlt.
  unfold IM.exists_, IM.delete_. rewrite Hs. simpl. rewrite Hlt. split; reflexivity.
Qed.

Lemma memory_delete_counts_expired_witness :
  let st := snd (IM.set (mkClock 0 0) "u1" Samples.sample_data (Some 60%Z) (IM.init None)) in
  fst (IM.exists_ (mkClock 61 61) "u1" st) = false
  ∧ fst (IM.delete_ (mkClock 61 61) "u1" st) = true.
Proof.
  apply (memory_delete_counts_expired (mkClock 61 61) "u1"
           (snd (IM.set (mkClock 0 0) "u1" Samples.sample_data (Some 60%Z) (IM.init None)))
           Samples.sample_data (0 + inject_Z 60)%Q).
  - vm_compute. reflexivity.
  - vm_compute. reflexivity.
Defined.

Section MemorySweepFacts.

Lemma collectible_expired (now : Q) (e : option Q) :
  IM.collectible now e = true → IM._is_expired now e = true.
Proof.
  destruct e as [q|]; simpl; [|discriminate].
  intros H. apply andb_true_iff in H as [_ H]. exact H.
Qed.

Lemma cleanup_lookup (now : Q) (st : IM.t) (uid : string)
    (d : Store.SessionData) (e : option Q) :
  IM._store (IM._cleanup_expired now st) !! uid = Some (d, e)
  ↔ IM._store st !! uid = Some (d, e) ∧ IM.collectible now e = false.
Proof.
  unfold IM._cleanup_expired; simpl. rewrite map_lookup_filter_Some. reflexivity.
Qed.

Lemma users_listed (clk : Clock) (uid : string) (st : IM.t) :
  uid ∈ fst (IM.get_all_users clk st)
  ↔ ∃ d e, IM._store (IM._cleanup_expired (utcnow clk) st) !! uid = Some (d, e).
Proof.
  unfold IM.get_all_users; simpl. rewrite list_elem_of_fmap. split.
  - intros ([k [d e]] & -> & Hin). apply elem_of_map_to_list in Hin. eauto.
  - intros (d & e & Hs). exists (uid, (d, e)). split; [reflexivity|].
    by apply elem_of_map_to_list.
Qed.

End MemorySweepFacts.

(** X6: [get_all_users] lists every user whose session [get] would return;
    a listed user that [get] reports absent can only be one whose expiry is
    the timestamp 0, which the clean-up treats as "no expiry". *)
Theorem memory_users_cover_get (clk : Clock) (uid : string) (st : IM.t) :
  (is_Some (fst (IM.get clk uid st)) → uid ∈ fst (IM.get_all_users clk st))
  ∧ (uid ∈ fst (IM.get_all_users clk st) → fst (IM.get clk uid st) = None →
     ∃ d e, IM._store st !! uid = Some (d, Some e) ∧ (e == 0)%Q ∧ (0 < utcnow clk)%Q).
Proof.
  split.
  - intros [d Hd]. apply users_listed. unfold IM.get in Hd.
    destruct (IM._store st !! uid) as [[d' e]|] eqn:Hs; [|discriminate].
    destruct (IM._is_expired (utcnow clk) e) eqn:He; [discriminate|].
    exists d', e. apply cleanup_lookup. split; [exact Hs|].
    destruct (IM.collectible (utcnow clk) e) eqn:Hc; [|reflexivity].
    apply collectible_expired in Hc. congruence.
  - intros Hin Hnone. apply users_listed in Hin as (d & e & Hs).
    apply cleanup_lookup in Hs as [Hs Hc]. unfold IM.get in Hnone. rewrite Hs in Hnone.
    destruct (IM._is_expired (utcnow clk) e) eqn:He; [|discriminate].
    destruct e as [q|]; [|discriminate]. simpl in He, Hc.
    rewrite He, andb_true_r in Hc. apply negb_false_iff in Hc.
    apply Qeq_bool_iff in Hc. apply Qgtb_true in He.
    exists d, q. split; [exact Hs|]. split; [exact Hc|]. by rewrite <- Hc.
Qed.

Lemma memory_users_cover_get_witness :
  let st := IM.mk {[ "u1" := (Samples.sample_data, Some 0%Q) ]} None in
  (is_Some (fst (IM.get (mkClock 5 5) "u1" st)) → "u1" ∈ fst (IM.get_all_users (mkClock 5 5) st))
  ∧ ("u1" ∈ fst (IM.get_all_users (mkClock 5 5) st) →
     fst (IM.get (mkClock 5 5) "u1" st) = None →
     ∃ d e, IM._store st !! "u1" = Some (d, Some e) ∧ (e == 0)%Q
            ∧ (0 < utcnow (mkClock 5 5))%Q).
Proof.
  intros st.
  pose proof (memory_users_cover_get (mkClock 5 5) "u1" st) as [H1 H2].
  split; [exact H1|]. intros Hin Hnone. apply H2.
  - vm_compute. left.
  - vm_compute. reflexivity.
Defined.

(** X7: [size] never counts more than [clear_all] reports, which counts
    every entry held; after [clear_all] the store is empty for [size] and
    for [get]. *)
Theorem memory_clear_all_empties (clk clk' : Clock) (uid : string) (st : IM.t) :
  (fst (IM.size_ clk st) ≤ fst (IM.clear_all st))%nat
  ∧ fst (IM.size_ clk' (snd (IM.clear_all st))) = 0%nat
  ∧ fst (IM.get clk' uid (snd (IM.clear_all st))) = None
  ∧ fst (IM.get_all_users clk' (snd (IM.clear_all st))) = [].
Proof.
  unfold IM.size_, IM.clear_all, IM.get, IM.get_all_users, IM._cleanup_expired; simpl.
  split; [|split; [|split]].
  - apply map_subseteq_size, map_filter_subseteq.
  - rewrite map_filter_empty. apply map_size_empty.
  - rewrite lookup_empty. reflexivity.
  - rewrite map_filter_empty, map_to_list_empty. reflexivity.
Qed.

Section MemoryUpdateFacts.

Lemma fresh_expiry_not_expired (now : Q) (dflt : option Z) :
  (∀ n, dflt = Some n → (0 ≤ n)%Z) →
  IM._is_expired now
    (match effective_ttl None dflt with
     | Some n => if truthy n then Some (now + inject_Z n)%Q else None
     | None => None
     end) = false.
Proof.
  intros Hn. simpl. destruct dflt as [n|]; [|reflexivity].
  destruct (truthy n); [|reflexivity]. simpl. apply Qgtb_false.
  specialize (Hn n eq_refl).
  assert (0 <= inject_Z n)%Q by (unfold Qle; simpl; lia). lra.
Qed.

End MemoryUpdateFacts.

(** X8: on a live in-memory session (and a store whose default
    time-to-live, if any, is not negative), [update_trust] and
    [increment_tokens] return [True], and a [get] right after returns the
    old snapshot with only the target field and [last_seen] changed. *)
Theorem memory_update_then_get (clk : Clock) (uid : string) (st : IM.t)
    (d : Store.SessionData) (e : option Q) (v : Z) :
  IM._store st !! uid = Some (d, e) →
  IM._is_expired (utcnow clk) e = false →
  (∀ n, IM._default_ttl st = Some n → (0 ≤ n)%Z) →
  fst (IM.update_trust clk uid v st) = true
  ∧ fst (IM.get clk uid (snd (IM.update_trust clk uid v st)))
    = Some (Store.set_last_seen (utcnow clk) (Store.set_trust_score v d))
  ∧ fst (IM.increment_tokens clk uid v st) = true
  ∧ fst (IM.get clk uid (snd (IM.increment_tokens clk uid v st)))
    = Some (Store.set_last_seen (utcnow clk)
              (Store.set_tokens_used (Store.tokens_used d + v) d)).
Proof.
  intros Hs He Hdflt.
  unfold IM.update_trust, IM.increment_tokens,
    Store.base_update_trust, Store.base_increment_tokens; simpl.
  rewrite (memory_get_live _ _ _ _ _ Hs He).
  pose proof (fresh_expiry_not_expired (utcnow clk) _ Hdflt) as Hfresh.
  unfold IM.set, IM.get; simpl. rewrite !lookup_insert_eq.
  simpl in Hfresh. rewrite Hfresh. repeat split.
Qed.

Lemma memory_update_then_get_witness :
  let clk := mkClock 1 1 in
  let st := snd (IM.set (mkClock 0 0) "u1" Samples.sample_data None (IM.init None)) in
  fst (IM.update_trust clk "u1" 75 st) = true
  ∧ fst (IM.get clk "u1" (snd (IM.update_trust clk "u1" 75 st)))
    = Some (Store.set_last_seen (utcnow clk) (Store.set_trust_score 75 Samples.sample_data))
  ∧ fst (IM.increment_tokens clk "u1" 75 st) = true
  ∧ fst (IM.get clk "u1" (snd (IM.increment_tokens clk "u1" 75 st)))
    = Some (Store.set_last_seen (utcnow clk)
              (Store.set_tokens_used (Store.tokens_used Samples.sample_data + 75)
                 Samples.sample_data)).
Proof.
  apply (memory_update_then_get (mkClock 1 1) "u1"
           (snd (IM.set (mkClock 0 0) "u1" Samples.sample_data None (IM.init None)))
           Samples.sample_data None 75).
  - vm_compute. reflexivity.
  - reflexivity.
  - intros n Hn. discriminate Hn.
Defined.

(** X9: two successive [increment_tokens] on a live in-memory session leave
    the store exactly as one call with the sum of the two counts; in
    particular the order of the two counts does not matter. *)
Theorem memory_increments_add_up (clk : Clock) (uid : string) (st : IM.t)
    (d : Store.SessionData) (e : option Q) (a b : Z) :
  IM._store st !! uid = Some (d, e) →
  IM._is_expired (utcnow clk) e = false →
  (∀ n, IM._default_ttl st = Some n → (0 ≤ n)%Z) →
  snd (IM.increment_tokens clk uid b (snd (IM.increment_tokens clk uid a st)))
    = snd (IM.increment_tokens clk uid (a + b) st)
  ∧ snd (IM.increment_tokens clk uid b (snd (IM.increment_tokens clk uid a st)))
    = snd (IM.increment_tokens clk uid a (snd (IM.increment_tokens clk uid b st))).
Proof.
  intros Hs He Hdflt.
  assert (Hsum : ∀ x y,
    snd (IM.increment_tokens clk uid y (snd (IM.increment_tokens clk uid x st)))
    = snd (IM.increment_tokens clk uid (x + y) st)).
  { intros x y.
    unfold IM.increment_tokens, Store.base_increment_tokens; simpl.
    rewrite (memory_get_live _ _ _ _ _ Hs He).
    pose proof (fresh_expiry_not_expired (utcnow clk) _ Hdflt) as Hfresh.
    unfold IM.set at 2; simpl.
    unfold IM.get; simpl. rewrite lookup_insert_eq. simpl in Hfresh. rewrite Hfresh.
    unfold IM.set; simpl. rewrite insert_insert_eq.
    unfold Store.set_last_seen, Store.set_tokens_used; simpl.
    rewrite Z.add_assoc. reflexivity. }
  split; [apply Hsum|]. rewrite !Hsum. by rewrite Z.add_comm.
Qed.

Lemma memory_increments_add_up_witness :
  let clk := mkClock 1 1 in
  let st := snd (IM.set (mkClock 0 0) "u1" Samples.zero_counter_data None (IM.init None)) in
  snd (IM.increment_tokens clk "u1" 50 (snd (IM.increment_tokens clk "u1" 100 st)))
    = snd (IM.increment_tokens clk "u1" (100 + 50) st)
  ∧ snd (IM.increment_tokens clk "u1" 50 (snd (IM.increment_tokens clk "u1" 100 st)))
    = snd (IM.increment_tokens clk "u1" 100 (snd (IM.increment_tokens clk "u1" 50 st))).
Proof.
  apply (memory_increments_add_up (mkClock 1 1) "u1"
           (snd (IM.set (mkClock 0 0) "u1" Samples.zero_counter_data None (IM.init None)))
           Samples.zero_counter_data None 100 50).
  - vm_compute. reflexivity.
  - reflexivity.
  - intros n Hn. discriminate Hn.
Defined.

(** ** The Redis store *)

Section RedisFacts.

Lemma redis_expired_iff (now t : Z) : RS.expired now (Some t) = false ↔ (now ≤ t)%Z.
Proof. unfold RS.expired. rewrite Z.ltb_ge. reflexivity. Qed.

Lemma key_with_redis (db : RS.keyspace) (st : RS.t) (uid : string) :
  RS._key (RS.with_redis db st) uid = RS._key st uid.
Proof. reflexivity. Qed.

End RedisFacts.

(** X10: a snapshot stored in Redis with a positive time-to-live is
    returned unchanged by [get] while the server time has not passed
    now + ttl, and is absent afterwards. *)
Theorem redis_get_after_set (clk clk' : Clock) (uid : string)
    (data : Store.SessionData) (ttl : option Z) (st : RS.t) (n : Z) :
  effective_ttl ttl (RS._default_ttl st) = Some n → (0 < n)%Z →
  fst (RS.set clk uid data ttl st) = true
  ∧ ((server_time clk' ≤ server_time clk + n)%Z →
     fst (RS.get clk' uid (snd (RS.set clk uid data ttl st))) = Some data)
  ∧ ((server_time clk + n < server_time clk')%Z →
     fst (RS.get clk' uid (snd (RS.set clk uid data ttl st))) = None
     ∧ fst (RS.exists_ clk' uid (snd (RS.set clk uid data ttl st))) = false).
Proof.
  intros Heff Hn.
  assert (Hset : RS.set clk uid data ttl st
            = (true, RS.with_redis
                       (<[RS._key st uid := (Store.to_json data, Some (server_time clk + n)%Z)]>
                          (RS._redis st)) st)).
  { unfold RS.set. rewrite Heff. unfold truthy, RS.redis_setex.
    destruct (Z.eqb_spec n 0); [lia|]. simpl.
    destruct (Z.ltb_spec 0 n); [reflexivity | lia]. }
  rewrite Hset; simpl. split; [reflexivity|]. split.
  - intros Hle. unfold RS.get, RS.redis_get. rewrite key_with_redis; simpl.
    rewrite redis_live_insert by (by apply redis_expired_iff). simpl.
    unfold Store.to_json, Store.from_json. rewrite from_dict_to_dict. reflexivity.
  - intros Hlt. unfold RS.get, RS.exists_, RS.redis_get, RS.redis_exists.
    rewrite !key_with_redis; simpl.
    unfold RS.live. rewrite lookup_insert_eq. simpl.
    destruct (Z.ltb_spec (server_time clk + n) (server_time clk')); [|lia].
    split; reflexivity.
Qed.

Lemma redis_get_after_set_witness :
  let st := RS.mk ∅ "s:" (Some 86400%Z) in
  fst (RS.set (mkClock 0 0) "u1" Samples.sample_data None st) = true
  ∧ ((server_time (mkClock 9 9) ≤ server_time (mkClock 0 0) + 86400)%Z →
     fst (RS.get (mkClock 9 9) "u1" (snd (RS.set (mkClock 0 0) "u1" Samples.sample_data None st)))
       = Some Samples.sample_data)
  ∧ ((server_time (mkClock 0 0) + 86400 < server_time (mkClock 9 9))%Z →
     fst (RS.get (mkClock 9 9) "u1" (snd (RS.set (mkClock 0 0) "u1" Samples.sample_data None st)))
       = None
     ∧ fst (RS.exists_ (mkClock 9 9) "u1"
              (snd (RS.set (mkClock 0 0) "u1" Samples.sample_data None st))) = false).
Proof.
  apply (redis_get_after_set (mkClock 0 0) (mkClock 9 9) "u1" Samples.sample_data None
           (RS.mk ∅ "s:" (Some 86400%Z)) 86400%Z).
  - reflexivity.
  - lia.
Defined.



(** X14: the Redis [delete] returns [True] exactly when the key is live
    (an expired key gives [False]); afterwards [exists] is [False], [get] is
    [None] and a second [delete] returns [False], at any time. *)
Theorem redis_delete_removes (clk clk' : Clock) (uid : string) (st : RS.t) :
  fst (RS.delete_ clk uid st)
    = bool_decide (is_Some (RS.live (server_time clk) (RS._key st uid) (RS._redis st)))
  ∧ fst (RS.exists_ clk' uid (snd (RS.delete_ clk uid st))) = false
  ∧ fst (RS.get clk' uid (snd (RS.delete_ clk uid st))) = None
  ∧ fst (RS.delete_ clk' uid (snd (RS.delete_ clk uid st))) = false.
Proof.
  assert (Hgone : ∀ now, RS.live now (RS._key st uid) (delete (RS._key st uid) (RS._redis st)) = None).
  { intros now. unfold RS.live. by rewrite lookup_delete_eq. }
  assert (Hsnd : snd (RS.delete_ clk uid st)
                 = RS.with_redis (delete (RS._key st uid) (RS._redis st)) st).
  { unfold RS.delete_, RS.redis_del.
    destruct (RS.live _ _ _); reflexivity. }
  rewrite Hsnd. split; [|split; [|split]].
  - unfold RS.delete_, RS.redis_del.
    destruct (RS.live _ _ _) as [entry|]; cbn [fst].
    + rewrite bool_decide_eq_true_2 by eauto. reflexivity.
    + rewrite bool_decide_eq_false_2 by (intros [? ?]; discriminate). reflexivity.
  - unfold RS.exists_, RS.redis_exists. rewrite key_with_redis. simpl.
    by rewrite Hgone.
  - unfold RS.get, RS.redis_get. rewrite key_with_redis. simpl. by rewrite Hgone.
  - unfold RS.delete_, RS.redis_del. rewrite key_with_redis. simpl. by rewrite Hgone.
Qed.

(** X15: a Redis key whose remaining time reads 0 when [update_trust] or
    [increment_tokens] runs is written back by the script with a plain SET:
    the call returns its usual result and the key never expires again. *)
Theorem redis_update_at_deadline_persists (clk clk' : Clock) (uid : string) (v : Z)
    (st : RS.t) (session : gmap string JVal) (old : Z) :
  RS._redis st !! RS._key st uid = Some (JObj session, Some (server_time clk)) →
  RS.lua_counter (session !! "tokens_used") = Ok old →
  fst (RS.update_trust clk uid v st) = true
  ∧ RS.expiry_of clk' uid (snd (RS.update_trust clk uid v st)) = Some None
  ∧ fst (RS.increment_tokens clk uid v st) = (0 <? old + v)%Z
  ∧ RS.expiry_of clk' uid (snd (RS.increment_tokens clk uid v st)) = Some None.
Proof.
  intros Hkey Hold.
  assert (Hlive : RS.live (server_time clk) (RS._key st uid) (RS._redis st)
                  = Some (JObj session, Some (server_time clk))).
  { unfold RS.live, RS.expired. by rewrite Hkey, Z.ltb_irrefl. }
  unfold RS.update_trust, RS.increment_tokens, RS.lua_update_trust,
    RS.lua_increment_tokens, RS.redis_get.
  rewrite Hlive; simpl. rewrite Hold.
  rewrite !(lua_write_back_at_deadline _ _ _ _ _ Hkey). simpl.
  unfold RS.expiry_of. rewrite !key_with_redis. simpl.
  rewrite !redis_live_insert by reflexivity. repeat split.
Qed.

Lemma redis_update_at_deadline_persists_witness :
  let st := snd (RS.set (mkClock 0 0) "u1" Samples.zero_counter_data (Some 60%Z)
                   (RS.mk ∅ "s:" None)) in
  fst (RS.update_trust (mkClock 60 60) "u1" 5 st) = true
  ∧ RS.expiry_of (mkClock 9999 9999) "u1" (snd (RS.update_trust (mkClock 60 60) "u1" 5 st))
    = Some None
  ∧ fst (RS.increment_tokens (mkClock 60 60) "u1" 5 st) = (0 <? 0 + 5)%Z
  ∧ RS.expiry_of (mkClock 9999 9999) "u1" (snd (RS.increment_tokens (mkClock 60 60) "u1" 5 st))
    = Some None.
Proof.
  apply (redis_update_at_deadline_persists (mkClock 60 60) (mkClock 9999 9999) "u1" 5
           (snd (RS.set (mkClock 0 0) "u1" Samples.zero_counter_data (Some 60%Z)
                   (RS.mk ∅ "s:" None)))
           (Store.to_dict Samples.zero_counter_data) 0).
  - vm_compute. reflexivity.
  - vm_compute. reflexivity.
Defined.

(** ** The plane registry *)

Section DictFacts.
Import Plugins.
Context {V : Type}.

Lemma dict_get_None (k : string) (d : list (string * V)) :
  dict_get k d = None ↔ k ∉ fst <$> d.
Proof.
  induction d as [|[k' v] d IH]; simpl.
  - split; [intros _; apply not_elem_of_nil | reflexivity].
  - destruct (decide (k = k')) as [->|Hne].
    + split; [discriminate | intros H; exfalso; apply H; left].
    + rewrite IH. rewrite not_elem_of_cons. tauto.
Qed.

Lemma dict_set_keys (k : string) (v : V) (d : list (string * V)) :
  ∀ x, x ∈ fst <$> dict_set k v d ↔ x = k ∨ x ∈ fst <$> d.
Proof.
  induction d as [|[k' v'] d IH]; intros x; simpl.
  - rewrite list_elem_of_singleton.
    split; [by left | intros [Hx|Hx]; [exact Hx | inversion Hx]].
  - destruct (decide (k = k')) as [->|Hne]; simpl.
    + rewrite !elem_of_cons. tauto.
    + rewrite !elem_of_cons, IH. tauto.
Qed.

Lemma dict_set_NoDup (k : string) (v : V) (d : list (string * V)) :
  NoDup (fst <$> d) → NoDup (fst <$> dict_set k v d).
Proof.
  induction d as [|[k' v'] d IH]; simpl; intros Hnd.
  - apply NoDup_singleton.
  - apply NoDup_cons in Hnd as [Hnotin Hnd].
    destruct (decide (k = k')) as [->|Hne]; simpl.
    + by apply NoDup_cons.
    + apply NoDup_cons. split; [|by apply IH].
      rewrite dict_set_keys. intros [->|Hin]; [done | by apply Hnotin].
Qed.

Lemma dict_del_keys (k : string) (d : list (string * V)) :
  ∀ x, x ∈ fst <$> dict_del k d → x ∈ fst <$> d.
Proof.
  induction d as [|[k' v'] d IH]; intros x; simpl; [done|].
  destruct (decide (k = k')) as [->|Hne]; simpl.
  - intros H. by right.
  - rewrite !elem_of_cons. intros [->|H]; [by left | right; by apply IH].
Qed.

Lemma dict_del_NoDup (k : string) (d : list (string * V)) :
  NoDup (fst <$> d) → NoDup (fst <$> dict_del k d).
Proof.
  induction d as [|[k' v'] d IH]; simpl; intros Hnd; [done|].
  apply NoDup_cons in Hnd as [Hnotin Hnd].
  destruct (decide (k = k')) as [->|Hne]; simpl; [done|].
  apply NoDup_cons. split; [|by apply IH].
  intros Hin. apply Hnotin. by eapply dict_del_keys.
Qed.

Lemma dict_get_del_eq (k : string) (d : list (string * V)) :
  NoDup (fst <$> d) → dict_get k (dict_del k d) = None.
Proof.
  induction d as [|[k' v'] d IH]; simpl; intros Hnd; [done|].
  apply NoDup_cons in Hnd as [Hnotin Hnd].
  destruct (decide (k = k')) as [->|Hne]; simpl.
  - by apply dict_get_None.
  - rewrite decide_False by done. by apply IH.
Qed.

Lemma dict_get_del_ne (k k' : string) (d : list (string * V)) :
  k' ≠ k → dict_get k' (dict_del k d) = dict_get k' d.
Proof.
  intros Hne. induction d as [|[k0 v0] d IH]; simpl; [done|].
  destruct (decide (k = k0)) as [->|Hne0]; simpl.
  - by rewrite decide_False.
  - destruct (decide (k' = k0)); [done | exact IH].
Qed.

Lemma dict_get_update (k : string) (other : list (string * V)) :
  NoDup (fst <$> other) →
  ∀ d, dict_get k (dict_update d other)
       = match dict_get k other with
         | Some v => Some v
         | None => dict_get k d
         end.
Proof.
  unfold dict_update.
  induction other as [|[k0 v0] other IH]; simpl; intros Hnd d; [done|].
  apply NoDup_cons in Hnd as [Hnotin Hnd].
  rewrite IH by exact Hnd.
  destruct (decide (k = k0)) as [->|Hne].
  - apply dict_get_None in Hnotin. rewrite Hnotin. apply dict_get_set_eq.
  - by rewrite dict_get_set_ne.
Qed.

End DictFacts.

Section RegistryInvariant.
Import Plugins.

Lemma dict_set_ok (c : PlaneClass) (d : list (string * PlaneClass)) :
  dict_ok d → dict_ok (dict_set (name (get_config c)) c d).
Proof.
  intros [Hnd Hnames]. split; [by apply dict_set_NoDup|].
  induction d as [|[k v] d IH]; simpl.
  - by repeat constructor.
  - apply Forall_cons in Hnames as [Hk Hnames].
    apply NoDup_cons in Hnd as [_ Hnd].
    destruct (decide (name (get_config c) = k)); constructor; auto.
Qed.

Lemma dict_del_ok (n : string) (d : list (string * PlaneClass)) :
  dict_ok d → dict_ok (dict_del n d).
Proof.
  intros [Hnd Hnames]. split; [by apply dict_del_NoDup|].
  clear Hnd. induction d as [|[k v] d IH]; simpl; [done|].
  apply Forall_cons in Hnames as [Hk Hnames].
  destruct (decide (n = k)); [done | constructor; auto].
Qed.

Lemma dict_ok_nil : dict_ok [].
Proof. split; [apply NoDup_nil_2 | constructor]. Qed.

End RegistryInvariant.

(** X16: the registry keeps its shape: starting from the empty registry,
    [register] (with or without override, succeeding or not), [unregister],
    [clear] and [register_global] all preserve that no name occurs twice in
    either dictionary and that every class is filed under its own
    configured name. *)
Theorem registry_stays_well_formed (r : Plugins.PlaneRegistry) (c : Plugins.PlaneClass)
    (override : bool) (n : string) :
  Plugins.well_formed Plugins.empty_registry
  ∧ (Plugins.well_formed r →
     Plugins.well_formed (snd (Plugins.register r c override))
     ∧ Plugins.well_formed (snd (Plugins.unregister r n))
     ∧ Plugins.well_formed (Plugins.clear r)
     ∧ Plugins.well_formed (Plugins.register_global r c)).
Proof.
  split; [split; apply dict_ok_nil|].
  intros [Hl Hg]. split; [|split; [|split]].
  - unfold Plugins.register, Plugins.well_formed.
    destruct (Plugins.dict_get _ _); [destruct override|]; simpl;
      (split; [first [by apply dict_set_ok | exact Hl] | exact Hg]).
  - unfold Plugins.unregister, Plugins.well_formed.
    destruct (Plugins.dict_get _ _); simpl;
      (split; [first [by apply dict_del_ok | exact Hl] | exact Hg]).
  - split; [apply dict_ok_nil | exact Hg].
  - split; [exact Hl | by apply dict_set_ok].
Qed.

Lemma registry_stays_well_formed_witness :
  Plugins.well_formed Plugins.empty_registry
  ∧ (Plugins.well_formed Plugins.empty_registry →
     Plugins.well_formed (snd (Plugins.register Plugins.empty_registry Samples.PlaneA false))
     ∧ Plugins.well_formed (snd (Plugins.unregister Plugins.empty_registry "duplicate"))
     ∧ Plugins.well_formed (Plugins.clear Plugins.empty_registry)
     ∧ Plugins.well_formed (Plugins.register_global Plugins.empty_registry Samples.PlaneA)).
Proof.
  exact (registry_stays_well_formed Plugins.empty_registry Samples.PlaneA false "duplicate").
Defined.

(** X17: [get(name)] and [get_all()] agree: looking a name up in the
    combined dictionary gives the class [get] returns, the local
    registration taking precedence over the global one. *)
Theorem registry_get_all_agrees (r : Plugins.PlaneRegistry) (n : string) :
  NoDup (fst <$> Plugins._local_registry r) →
  Plugins.dict_get n (Plugins.get_all r) = Plugins.get r n.
Proof.
  intros Hnd. unfold Plugins.get_all, Plugins.get.
  by rewrite dict_get_update.
Qed.

Lemma registry_get_all_agrees_witness :
  let r := snd (Plugins.register
                  (Plugins.register_global Plugins.empty_registry Samples.PlaneA)
                  Samples.PlaneB false) in
  Plugins.dict_get "duplicate" (Plugins.get_all r) = Plugins.get r "duplicate".
Proof.
  intros r. apply (registry_get_all_agrees r "duplicate").
  vm_compute. apply NoDup_singleton.
Defined.

(** X18: a local registration shadows a global one of the same name, and
    [unregister] only removes the local one: after it [get] falls back to the
    global class, and a second [unregister] finds nothing and returns
    [False]. *)
Theorem registry_local_shadows_global (r : Plugins.PlaneRegistry)
    (local global : Plugins.PlaneClass) :
  NoDup (fst <$> Plugins._local_registry r) →
  Plugins.name (Plugins.get_config local) = Plugins.name (Plugins.get_config global) →
  let n := Plugins.name (Plugins.get_config local) in
  let r1 := snd (Plugins.register (Plugins.register_global r global) local true) in
  Plugins.get r1 n = Some local
  ∧ fst (Plugins.unregister r1 n) = true
  ∧ Plugins.get (snd (Plugins.unregister r1 n)) n = Some global
  ∧ fst (Plugins.unregister (snd (Plugins.unregister r1 n)) n) = false.
Proof.
  intros Hnd Hname n r1.
  assert (Hr1 : r1 = Plugins.mkPlaneRegistry
                       (Plugins.dict_set n local (Plugins._local_registry r))
                       (Plugins.dict_set n global (Plugins._global_registry r))).
  { subst r1 n. unfold Plugins.register, Plugins.register_global; simpl.
    rewrite <- Hname.
    destruct (Plugins.dict_get _ _); reflexivity. }
  rewrite Hr1. unfold Plugins.unregister, Plugins.get; simpl.
  rewrite !dict_get_set_eq; simpl.
  rewrite dict_get_del_eq by (by apply dict_set_NoDup).
  rewrite dict_get_set_eq. repeat split.
Qed.

Lemma registry_local_shadows_global_witness :
  let r1 := snd (Plugins.register
                   (Plugins.register_global Plugins.empty_registry Samples.PlaneA)
                   Samples.PlaneB true) in
  Plugins.get r1 "duplicate" = Some Samples.PlaneB
  ∧ fst (Plugins.unregister r1 "duplicate") = true
  ∧ Plugins.get (snd (Plugins.unregister r1 "duplicate")) "duplicate" = Some Samples.PlaneA
  ∧ fst (Plugins.unregister (snd (Plugins.unregister r1 "duplicate")) "duplicate") = false.
Proof.
  apply (registry_local_shadows_global Plugins.empty_registry Samples.PlaneB Samples.PlaneA).
  - apply NoDup_nil_2.
  - reflexivity.
Defined.

Section SortingFacts.
Import Plugins.

Lemma insert_sorted_perm (c : PlaneClass) (l : list PlaneClass) :
  insert_sorted c l ≡ₚ c :: l.
Proof.
  induction l as [|x l IH]; simpl; [done|].
  destruct (priority (get_config c) <? priority (get_config x))%Z; [done|].
  rewrite IH. apply perm_swap.
Qed.

Lemma sorted_by_priority_perm (l : list PlaneClass) : sorted_by_priority l ≡ₚ l.
Proof.
  unfold sorted_by_priority. rewrite <- (reverse_Permutation l) at 2.
  induction (reverse l) as [|c l' IH]; simpl; [done|].
  by rewrite insert_sorted_perm, IH.
Qed.

Lemma insert_sorted_sorted (c : PlaneClass) (l : list PlaneClass) :
  StronglySorted priority_le l → StronglySorted priority_le (insert_sorted c l).
Proof.
  induction l as [|x l IH]; simpl; intros Hs.
  - repeat constructor.
  - apply StronglySorted_inv in Hs as [Hl Hx].
    destruct (Z.ltb_spec (priority (get_config c)) (priority (get_config x))).
    + constructor; [by constructor|].
      constructor; [unfold priority_le; lia|].
      eapply Forall_impl; [exact Hx|]. unfold priority_le. intros y Hy. lia.
    + constructor; [by apply IH|].
      rewrite insert_sorted_perm. constructor; [exact H | exact Hx].
Qed.

Lemma sorted_by_priority_sorted (l : list PlaneClass) :
  StronglySorted priority_le (sorted_by_priority l).
Proof.
  unfold sorted_by_priority.
  induction (reverse l) as [|c l' IH]; simpl; [constructor|].
  by apply insert_sorted_sorted.
Qed.

Lemma sorted_by_priority_snoc (l : list PlaneClass) (c : PlaneClass) :
  sorted_by_priority (l ++ [c]) = insert_sorted c (sorted_by_priority l).
Proof. unfold sorted_by_priority. by rewrite reverse_snoc. Qed.

Lemma filter_none {A} (P : A → Prop) `{∀ x, Decision (P x)} (l : list A) :
  Forall (fun x => ¬ P x) l → filter P l = [].
Proof.
  induction 1 as [|x l Hx Hl IH]; [done|].
  by rewrite filter_cons_False.
Qed.

(** Inserting into a sorted list puts the new class behind the classes of
    the same priority. *)
Lemma insert_sorted_same_priority (p : Z) (c : PlaneClass) (l : list PlaneClass) :
  StronglySorted priority_le l →
  filter (fun x => priority (get_config x) = p) (insert_sorted c l)
  = filter (fun x => priority (get_config x) = p) l
    ++ filter (fun x => priority (get_config x) = p) [c].
Proof.
  induction l as [|x l IH]; simpl; intros Hs; [done|].
  apply StronglySorted_inv in Hs as [Hl Hx].
  destruct (Z.ltb_spec (priority (get_config c)) (priority (get_config x))).
  - rewrite (filter_cons _ c). rewrite (filter_cons _ c []), filter_nil.
    destruct (decide (priority (get_config c) = p)) as [Hp|Hp].
    + assert (Hnone : filter (fun y => priority (get_config y) = p) (x :: l) = []).
      { apply filter_none. constructor; [lia|].
        eapply Forall_impl; [exact Hx|]. unfold priority_le. intros y Hy. lia. }
      rewrite Hnone. reflexivity.
    + by rewrite app_nil_r.
  - rewrite !(filter_cons _ x). rewrite IH by exact Hl.
    destruct (decide (priority (get_config x) = p)); reflexivity.
Qed.

Lemma sorted_by_priority_stable (p : Z) (l : list PlaneClass) :
  filter (fun x => priority (get_config x) = p) (sorted_by_priority l)
  = filter (fun x => priority (get_config x) = p) l.
Proof.
  induction l as [|c l IH] using rev_ind; [done|].
  rewrite sorted_by_priority_snoc, insert_sorted_same_priority
    by apply sorted_by_priority_sorted.
  by rewrite IH, filter_app.
Qed.

End SortingFacts.

Section PhaseOrder.
Import Plugins.

(** X19: [get_by_phase] returns exactly the registered classes of that
    phase (those of [get_all], each once), in ascending priority. *)
Theorem get_by_phase_sorted_selection (r : Plugins.PlaneRegistry) (ph : Plugins.PlanePhase) :
  Plugins.get_by_phase r ph
    ≡ₚ filter (fun c => Plugins.phase (Plugins.get_config c) = ph)
              (snd <$> Plugins.get_all r)
  ∧ StronglySorted Plugins.priority_le (Plugins.get_by_phase r ph).
Proof.
  unfold Plugins.get_by_phase. split.
  - apply sorted_by_priority_perm.
  - apply sorted_by_priority_sorted.
Qed.

(** X20: [get_by_phase] is stable: classes of the phase that have the same
    priority come out in the order in which [get_all] lists them, that is in
    registration order. *)
Theorem get_by_phase_stable (r : Plugins.PlaneRegistry) (ph : Plugins.PlanePhase) (p : Z) :
  filter (fun c => Plugins.priority (Plugins.get_config c) = p) (Plugins.get_by_phase r ph)
  = filter (fun c => Plugins.priority (Plugins.get_config c) = p)
      (filter (fun c => Plugins.phase (Plugins.get_config c) = ph)
              (snd <$> Plugins.get_all r)).
Proof. unfold Plugins.get_by_phase. apply sorted_by_priority_stable. Qed.

End PhaseOrder.

(** ** Plugin instances of the guard *)

Section InstanceFacts.
Import Types Plugins.

(** Lazy creation keeps every instance it finds. *)
Lemma collect_plugins_keeps (classes : list PlaneClass) :
  ∀ insts : gmap string BasePlane, insts ⊆ snd (AG.collect_plugins classes insts).
Proof.
  induction classes as [|c rest IH]; intros insts; simpl; [done|].
  set (insts1 := match insts !! name (get_config c) with
                 | Some _ => insts
                 | None => <[name (get_config c) := new_plane c]> insts
                 end).
  assert (H1 : insts ⊆ insts1).
  { subst insts1. destruct (insts !! name (get_config c)) eqn:E; [done|].
    by apply insert_subseteq. }
  specialize (IH insts1).
  destruct (AG.collect_plugins rest insts1) as [plugins insts2]; simpl in *.
  by etrans.
Qed.

(** Running the collection again on its own result changes nothing. *)
Lemma collect_plugins_fixed (classes : list PlaneClass) :
  ∀ insts insts' : gmap string BasePlane,
    snd (AG.collect_plugins classes insts) ⊆ insts' →
    AG.collect_plugins classes insts' = (fst (AG.collect_plugins classes insts), insts').
Proof.
  induction classes as [|c rest IH]; intros insts insts' Hsub; simpl; [done|].
  simpl in Hsub.
  set (n := name (get_config c)) in *.
  set (insts1 := match insts !! n with
                 | Some _ => insts
                 | None => <[n := new_plane c]> insts
                 end) in *.
  assert (Hn : insts1 !! n = Some (default (new_plane c) (insts1 !! n))).
  { subst insts1. destruct (insts !! n) eqn:E.
    - rewrite E. reflexivity.
    - rewrite lookup_insert_eq. reflexivity. }
  pose proof (collect_plugins_keeps rest insts1) as Hkeep.
  specialize (IH insts1 insts').
  destruct (AG.collect_plugins rest insts1) as [plugins insts2]; simpl in *.
  assert (Hn' : insts' !! n = Some (default (new_plane c) (insts1 !! n))).
  { eapply lookup_weaken; [exact Hn|]. by etrans. }
  rewrite Hn'. simpl. rewrite Hn'. simpl. rewrite (IH Hsub). reflexivity.
Qed.

Lemma collect_plugins_enabled (classes : list PlaneClass) :
  ∀ (insts : gmap string BasePlane) (p : BasePlane),
    p ∈ fst (AG.collect_plugins classes insts) →
    plane_enabled p = true
    ∧ ∃ c, c ∈ classes
           ∧ snd (AG.collect_plugins classes insts) !! name (get_config c) = Some p.
Proof.
  induction classes as [|c rest IH]; intros insts p; simpl.
  - intros Hp. inversion Hp.
  - set (n := name (get_config c)) in *.
    set (insts1 := match insts !! n with
                   | Some _ => insts
                   | None => <[n := new_plane c]> insts
                   end) in *.
    assert (Hn : insts1 !! n = Some (default (new_plane c) (insts1 !! n))).
    { subst insts1. destruct (insts !! n) eqn:E.
      - rewrite E. reflexivity.
      - rewrite lookup_insert_eq. reflexivity. }
    pose proof (collect_plugins_keeps rest insts1) as Hkeep.
    specialize (IH insts1 p).
    destruct (AG.collect_plugins rest insts1) as [plugins insts2]; simpl in *.
    intros Hp.
    assert (Hrest : p ∈ plugins →
              plane_enabled p = true
              ∧ ∃ c0, c0 ∈ c :: rest ∧ insts2 !! name (get_config c0) = Some p).
    { intros Hin. destruct (IH Hin) as [He (c0 & Hc0 & Hl)].
      split; [exact He|]. exists c0. split; [by right | exact Hl]. }
    destruct (plane_enabled (default (new_plane c) (insts1 !! n))) eqn:Hen.
    + apply elem_of_cons in Hp as [-> | Hp]; [|by apply Hrest].
      split; [exact Hen|]. exists c. split; [left|].
      eapply lookup_weaken; [exact Hn | exact Hkeep].
    + by apply Hrest.
Qed.

End InstanceFacts.

(** X21: plugin instances are created once and reused: fetching the plugins
    of a phase never replaces an instance the guard already holds, and
    fetching the same phase again returns the same plugins and leaves the
    guard unchanged. *)
Theorem plugin_instances_are_reused (g : AG.t) (ph : Plugins.PlanePhase) :
  (∀ n p, AG._plugin_instances g !! n = Some p →
          AG._plugin_instances (AG.after_phase g ph) !! n = Some p)
  ∧ AG.phase_plugins (AG.after_phase g ph) ph = AG.phase_plugins g ph
  ∧ AG.after_phase (AG.after_phase g ph) ph = AG.after_phase g ph.
Proof.
  pose proof (collect_plugins_keeps
                (Plugins.get_by_phase (AG._registry g) ph) (AG._plugin_instances g)) as Hkeep.
  pose proof (collect_plugins_fixed
                (Plugins.get_by_phase (AG._registry g) ph) (AG._plugin_instances g)
                _ (reflexivity _)) as Hfix.
  split; [|split].
  - intros n p Hn. rewrite after_phase_eq; simpl. by eapply lookup_weaken.
  - unfold AG.phase_plugins. rewrite after_phase_eq.
    unfold AG._get_plugins_for_phase; simpl. rewrite Hfix.
    destruct (AG.collect_plugins _ _); reflexivity.
  - rewrite (after_phase_eq (AG.after_phase g ph)), after_phase_registry.
    rewrite after_phase_eq; simpl. rewrite Hfix. reflexivity.
Qed.

(** X22: only enabled planes run: every plugin fetched for a phase is
    enabled and is the instance the guard holds under the name of a class
    registered for that phase; an instance that was disabled is left out. *)
Theorem only_enabled_plugins_run (g : AG.t) (ph : Plugins.PlanePhase)
    (p : Plugins.BasePlane) :
  p ∈ AG.phase_plugins g ph →
  Plugins.plane_enabled p = true
  ∧ ∃ c, c ∈ Plugins.get_by_phase (AG._registry g) ph
         ∧ AG._plugin_instances (AG.after_phase g ph)
             !! Plugins.name (Plugins.get_config c) = Some p.
Proof.
  intros Hp. unfold AG.phase_plugins, AG._get_plugins_for_phase in Hp.
  rewrite after_phase_eq; simpl.
  pose proof (collect_plugins_enabled
                (Plugins.get_by_phase (AG._registry g) ph) (AG._plugin_instances g) p) as H.
  destruct (AG.collect_plugins _ _) as [plugins insts]; simpl in *.
  by apply H.
Qed.

Lemma only_enabled_plugins_run_witness :
  let c := Samples.passing_plugin "a" Plugins.POST_INTENT 5 in
  let g := Samples.guard_with true true true [c] in
  Plugins.plane_enabled (Plugins.new_plane c) = true
  ∧ ∃ c', c' ∈ Plugins.get_by_phase (AG._registry g) Plugins.POST_INTENT
          ∧ AG._plugin_instances (AG.after_phase g Plugins.POST_INTENT)
              !! Plugins.name (Plugins.get_config c') = Some (Plugins.new_plane c).
Proof.
  intros c g.
  apply (only_enabled_plugins_run g Plugins.POST_INTENT (Plugins.new_plane c)).
  vm_compute. left.
Defined.

(** ** One evaluation of the pipeline *)

Section EvaluationFacts.
Import Types Plugins.
Variable get_full_context : Session → string.
Variable degrade_response : string.

Lemma after_phase_audit_log g ph : AG._audit_log (AG.after_phase g ph) = AG._audit_log g.
Proof. by rewrite after_phase_eq. Qed.
Lemma after_phase_audit_enabled g ph :
  AG._audit_enabled (AG.after_phase g ph) = AG._audit_enabled g.
Proof. by rewrite after_phase_eq. Qed.

Lemma record_pre_failed (outs : list (Res PlaneResult)) :
  ∀ pr pr' result,
    AG.record_pre outs pr = (pr', Some result) →
    passed result = false ∧ pr' !! plane_name result = Some result ∧ Ok result ∈ outs.
Proof.
  induction outs as [|[r|e] outs IH]; intros pr pr' result; simpl.
  - discriminate.
  - destruct (passed r) eqn:Hp.
    + intros H. destruct (IH _ _ _ H) as (? & ? & ?). repeat split; auto. by right.
    + intros [= <- <-]. split; [exact Hp|]. split; [apply lookup_insert_eq | left].
  - intros H. destruct (IH _ _ _ H) as (? & ? & ?). repeat split; auto. by right.
Qed.

(** What holds of an outcome of [inspect], to be established on every path
    through the pipeline: [P] relates the guard and session before to the
    result and the guard and session after. *)
Local Ltac walk :=
  unfold AG.inspect, AG.finish;
  unfold AG.bind, AG._run_sync_plane, AG.session_increment_tokens, AG._log_async, AG.ret;
  rewrite run_plugins_eq;
  destruct (AG.record_pre _ _) as [pr0 [blocked|]];
  cbn beta iota zeta delta [fst snd];
  repeat first
    [ progress rewrite ?run_plugins_eq
    | progress cbn beta iota zeta delta [fst snd negb]
    | match goal with
      | |- context [match ?f (AG.after_phase _ _) ?x with Ok _ => _ | Exn _ => _ end] =>
          destruct (f (AG.after_phase _ _) x) as [?r|?e]
      | |- context [match ?f (AG.after_phase _ _) ?x ?y with Ok _ => _ | Exn _ => _ end] =>
          destruct (f (AG.after_phase _ _) x y) as [?r|?e]
      | |- context [if negb (passed ?r) then _ else _] =>
          destruct (passed r)
      end ].

Local Ltac audit_fields :=
  rewrite ?after_phase_audit_enabled;
  try destruct (AG._audit_enabled _);
  cbn [AG._audit_log AG.with_audit_log];
  rewrite ?after_phase_audit_log, ?app_nil_r.

(** X23: exactly one audit entry per completed evaluation: when [inspect]
    returns a decision, the audit sink has grown by that decision and
    nothing else (or is unchanged when auditing is off); when a built-in
    check raises, nothing is logged. *)
Theorem inspect_audits_once (g : AG.t) (s : Session) (tid prompt : string) :
  match AG.inspect get_full_context degrade_response tid prompt (g, s) with
  | (Ok d, (g', _)) =>
      AG._audit_log g' = AG._audit_log g ++ (if AG._audit_enabled g then [d] else [])
  | (Exn _, (g', _)) => AG._audit_log g' = AG._audit_log g
  end.
Proof.
  walk; audit_fields; reflexivity.
Qed.

(** The shape of an outcome of [inspect], shared by the facts on tokens
    and on batches. *)
Lemma inspect_charges_tokens_shape (g : AG.t) (s : Session) (tid prompt : string) :
  match AG.inspect get_full_context degrade_response tid prompt (g, s) with
  | (Ok d, _) => trace_id d = tid
  | (Exn _, _) => True
  end.
Proof.
  walk; auto.
Qed.

(** X24: the session pays for the turn exactly when the request gets past
    the context check: a BLOCK decision leaves the session as it was, an
    ALLOW or DEGRADE decision leaves it with [tokens_used] raised by the
    length of the prompt, and the decision carries the trace id of the
    call. *)
Theorem inspect_charges_tokens (g : AG.t) (s : Session) (tid prompt : string) :
  match AG.inspect get_full_context degrade_response tid prompt (g, s) with
  | (Ok d, (_, s')) =>
      trace_id d = tid
      ∧ s' = match action d with
             | BLOCK => s
             | _ => increment_tokens (Z.of_nat (String.length prompt)) s
             end
  | (Exn _, (_, s')) =>
      s' = s ∨ s' = increment_tokens (Z.of_nat (String.length prompt)) s
  end.
Proof.
  walk; try (split; reflexivity); auto.
Qed.

(** X25: a pre-identity plugin that fails stops the evaluation at once:
    the decision is BLOCK with the rationale naming that plugin's details,
    its [plane_results] hold the failed result, and the session is returned
    untouched, whatever the built-in checks would have said. *)
Theorem pre_identity_failure_blocks (g : AG.t) (s : Session) (tid prompt : string)
    (pr : gmap string PlaneResult) (result : PlaneResult) :
  AG.record_pre (AG.phase_outcomes g PRE_IDENTITY prompt s ∅) ∅ = (pr, Some result) →
  passed result = false
  ∧ pr !! plane_name result = Some result
  ∧ fst (AG.inspect get_full_context degrade_response tid prompt (g, s))
    = Ok (create_block tid pr ("Pre-identity plugin failed: " +:+ details result)
            "Request validation failed.")
  ∧ snd (snd (AG.inspect get_full_context degrade_response tid prompt (g, s))) = s.
Proof.
  intros Hpre. destruct (record_pre_failed _ _ _ _ Hpre) as (Hfail & Hin & _).
  split; [exact Hfail|]. split; [exact Hin|].
  unfold AG.inspect, AG.bind. rewrite run_plugins_eq, Hpre.
  split; reflexivity.
Qed.

End EvaluationFacts.

Lemma pre_identity_failure_blocks_witness :
  let g := Samples.guard_with true true true
             [Samples.failing_plugin "probe" Plugins.PRE_IDENTITY "log"] in
  let pr := <["probe" := Samples.fail_result "probe"]> ∅ in
  Types.passed (Samples.fail_result "probe") = false
  ∧ pr !! Types.plane_name (Samples.fail_result "probe") = Some (Samples.fail_result "probe")
  ∧ fst (AG.inspect Samples.full_context Samples.notice "t1" "Hello" (g, Samples.sample_session))
    = Ok (Types.create_block "t1" pr
            ("Pre-identity plugin failed: " +:+ Types.details (Samples.fail_result "probe"))
            "Request validation failed.")
  ∧ snd (snd (AG.inspect Samples.full_context Samples.notice "t1" "Hello"
                (g, Samples.sample_session))) = Samples.sample_session.
Proof.
  intros g pr.
  apply (pre_identity_failure_blocks Samples.full_context Samples.notice g
           Samples.sample_session "t1" "Hello" pr (Samples.fail_result "probe")).
  vm_compute. reflexivity.
Defined.

(** ** Batches *)

Section BatchFacts.
Import Types Plugins.
Variable get_full_context : Session → string.
Variable degrade_response : string.

Lemma gather_Ok {A} (outs : list (Res A)) (l : list A) :
  AG.gather outs = Ok l ↔ outs = Ok <$> l.
Proof.
  revert l. induction outs as [|[a|e] outs IH]; intros l; simpl.
  - split; [intros [= <-]; reflexivity | by destruct l].
  - destruct (AG.gather outs) as [l'|e'] eqn:E.
    + split.
      * intros [= <-]. simpl. f_equal. by apply IH.
      * destruct l as [|a' l'']; [discriminate|]. simpl. intros [= <- H].
        apply IH in H. by injection H as ->.
    + split; [discriminate|].
      destruct l as [|a' l'']; [discriminate|]. simpl. intros [= <- H].
      apply IH in H. discriminate H.
  - split; [discriminate | by destruct l].
Qed.

Lemma inspect_trace_id (g : AG.t) (s : Session) (tid prompt : string) (d : Decision) :
  fst (AG.inspect get_full_context degrade_response tid prompt (g, s)) = Ok d →
  trace_id d = tid.
Proof.
  pose proof (inspect_charges_tokens_shape get_full_context degrade_response g s tid prompt) as H.
  destruct (AG.inspect _ _ _ _ _) as [[d'|e] [g' s']]; simpl; [|discriminate].
  intros [= <-]. exact H.
Qed.

Lemma run_tasks_trace_ids (requests : list (string * string * Session)) :
  ∀ (g : AG.t) (l : list Decision),
    fst <$> fst (AG.run_tasks get_full_context degrade_response requests g) = Ok <$> l →
    trace_id <$> l = (fun r => fst (fst r)) <$> requests.
Proof.
  induction requests as [|[[tid prompt] session] rest IH]; intros g l; simpl.
  - by destruct l.
  - pose proof (inspect_trace_id g session tid prompt) as Htid.
    destruct (AG.inspect _ _ _ _ _) as [r [g1 s1]]; simpl in *.
    specialize (IH g1).
    destruct (AG.run_tasks _ _ rest g1) as [outs g2]; simpl in *.
    destruct l as [|d l]; [discriminate|]. simpl. intros [= -> Hrest].
    f_equal; [by apply Htid | by apply IH].
Qed.

(** X26: when [inspect_batch] returns a list, it has one decision per
    request and the decisions are in the order of the requests: the i-th
    decision carries the trace id drawn for the i-th request. *)
Theorem inspect_batch_keeps_order (requests : list (string * string * Session))
    (g : AG.t) (l : list Decision) :
  fst (AG.inspect_batch get_full_context degrade_response requests g) = Ok l →
  length l = length requests
  ∧ trace_id <$> l = (fun r => fst (fst r)) <$> requests.
Proof.
  unfold AG.inspect_batch.
  pose proof (run_tasks_trace_ids requests g l) as H.
  destruct (AG.run_tasks _ _ requests g) as [outs g1]; simpl in *.
  intros Hg. apply gather_Ok in Hg. specialize (H Hg).
  split; [|exact H].
  rewrite <- (length_fmap trace_id l), H. apply length_fmap.
Qed.

End BatchFacts.

Lemma inspect_batch_keeps_order_witness :
  ∃ l,
    fst (AG.inspect_batch Samples.full_context Samples.notice
           [("t1", "Hello", Samples.sample_session); ("t2", "Hi", Samples.sample_session)]
           (Samples.guard_with true false true [])) = Ok l
    ∧ length l = 2%nat
    ∧ Types.trace_id <$> l = ["t1"; "t2"].
Proof.
  eexists. split; [vm_compute; reflexivity|].
  apply (inspect_batch_keeps_order Samples.full_context Samples.notice
           [("t1", "Hello", Samples.sample_session); ("t2", "Hi", Samples.sample_session)]
           (Samples.guard_with true false true [])).
  vm_compute. reflexivity.
Defined.

(** ** Reading a snapshot *)

(** X27: [from_dict] fills in the defaults of the dataclass: a record with
    only [user_id] and [fingerprint] gives trust 100, no tokens used, both
    timestamps at the time of reading, an empty summary and empty metadata;
    a record that lacks [user_id] or [fingerprint] is rejected. *)
Theorem from_dict_defaults (now : Q) (uid fp : string) (data : gmap string JVal) :
  data !! "user_id" = None ∨ data !! "fingerprint" = None →
  Store.from_dict now (<["user_id" := JStr uid]> (<["fingerprint" := JStr fp]> ∅))
    = Ok (Store.mkSessionData uid fp 100 now 0 now "" ∅)
  ∧ ∃ e, Store.from_dict now data = Exn e.
Proof.
  intros Hmissing. split.
  - vm_compute. reflexivity.
  - unfold Store.from_dict. destruct (bool_decide _); [|eauto].
    destruct Hmissing as [-> | Hfp]; simpl; [eauto|].
    destruct (Store.required Store.as_str (data !! "user_id")); simpl; [|eauto].
    rewrite Hfp. simpl. eauto.
Qed.

Lemma from_dict_defaults_witness :
  Store.from_dict 7 (<["user_id" := JStr "u1"]> (<["fingerprint" := JStr "fp"]> ∅))
    = Ok (Store.mkSessionData "u1" "fp" 100 7 0 7 "" ∅)
  ∧ ∃ e, Store.from_dict 7 (<["user_id" := JStr "u1"]> ∅) = Exn e.
Proof.
  apply (from_dict_defaults 7 "u1" "fp" (<["user_id" := JStr "u1"]> ∅)).
  right. vm_compute. reflexivity.
Defined.

(** X28: [touch] on a live in-memory session returns [True], changes
    nothing in the snapshot but [last_seen], and restarts the time-to-live
    from the store's default: the new deadline is now + default_ttl, or none
    when the store has no default; on an absent key it returns [False] and
    leaves the store alone. *)
Theorem memory_touch_restarts_ttl (clk : Clock) (uid : string) (st : IM.t)
    (d : Store.SessionData) (e : option Q) :
  IM._store st !! uid = Some (d, e) →
  IM._is_expired (utcnow clk) e = false →
  fst (IM.touch clk uid st) = true
  ∧ IM._store (snd (IM.touch clk uid st)) !! uid
    = Some (Store.set_last_seen (utcnow clk) d,
            match IM._default_ttl st with
            | Some n => if truthy n then Some (utcnow clk + inject_Z n)%Q else None
            | None => None
            end)
  ∧ ∀ other, IM._store st !! other = None → IM.touch clk other st = (false, st).
Proof.
  intros Hs He. unfold IM.touch, Store.base_touch; simpl.
  rewrite (memory_get_live _ _ _ _ _ Hs He).
  unfold IM.set; simpl. rewrite lookup_insert_eq.
  split; [reflexivity|]. split; [reflexivity|].
  intros other Hnone. unfold IM.get. rewrite Hnone. reflexivity.
Qed.

Lemma memory_touch_restarts_ttl_witness :
  let clk := mkClock 30 30 in
  let st := snd (IM.set (mkClock 0 0) "u1" Samples.sample_data (Some 60%Z)
                   (IM.init (Some 3600%Z))) in
  fst (IM.touch clk "u1" st) = true
  ∧ IM._store (snd (IM.touch clk "u1" st)) !! "u1"
    = Some (Store.set_last_seen (utcnow clk) Samples.sample_data,
            match IM._default_ttl st with
            | Some n => if truthy n then Some (utcnow clk + inject_Z n)%Q else None
            | None => None
            end)
  ∧ ∀ other, IM._store st !! other = None → IM.touch clk other st = (false, st).
Proof.
  apply (memory_touch_restarts_ttl (mkClock 30 30) "u1"
           (snd (IM.set (mkClock 0 0) "u1" Samples.sample_data (Some 60%Z)
                   (IM.init (Some 3600%Z))))
           Samples.sample_data (Some (0 + inject_Z 60)%Q)).
  - vm_compute. reflexivity.
  - vm_compute. reflexivity.
Defined.

(** ** Registering a plugin with the guard *)

Section RegisterPluginFacts.
Import Types Plugins.

Lemma dict_get_elem {V} (k : string) (v : V) (d : list (string * V)) :
  dict_get k d = Some v → (k, v) ∈ d.
Proof.
  induction d as [|[k' v'] d IH]; simpl; [discriminate|].
  destruct (decide (k = k')) as [->|Hne].
  - intros [= ->]. left.
  - intros H. right. by apply IH.
Qed.

Lemma collect_plugins_member (c : PlaneClass) (p : BasePlane) (classes : list PlaneClass) :
  ∀ insts : gmap string BasePlane,
    c ∈ classes →
    insts !! name (get_config c) = Some p →
    plane_enabled p = true →
    p ∈ fst (AG.collect_plugins classes insts).
Proof.
  induction classes as [|x rest IH]; intros insts Hc Hp Hen; simpl.
  - inversion Hc.
  - set (insts1 := match insts !! name (get_config x) with
                   | Some _ => insts
                   | None => <[name (get_config x) := new_plane x]> insts
                   end).
    assert (Hsub : insts ⊆ insts1).
    { subst insts1. destruct (insts !! name (get_config x)) eqn:E; [done|].
      by apply insert_subseteq. }
    assert (Hp1 : insts1 !! name (get_config c) = Some p) by (by eapply lookup_weaken).
    specialize (IH insts1).
    destruct (AG.collect_plugins rest insts1) as [plugins insts2]; simpl in *.
    apply elem_of_cons in Hc as [<- | Hc].
    + rewrite Hp1. simpl. rewrite Hen. left.
    + destruct (plane_enabled (default (new_plane x) (insts1 !! name (get_config x))));
        [right|]; by apply IH.
Qed.

End RegisterPluginFacts.

Section RegisterPlugin.
Import Types Plugins.

(** X29: [register_plugin] on a name that is already registered raises the
    duplicate-name error and leaves the guard, including the instance it
    holds, untouched; on a new name it succeeds, and if the class is enabled
    its fresh instance is among the plugins that run in the phase the class
    is configured for. *)
Theorem register_plugin_takes_effect (g : AG.t) (c : PlaneClass) :
  NoDup (fst <$> _local_registry (AG._registry g)) →
  match dict_get (name (get_config c)) (_local_registry (AG._registry g)) with
  | Some _ =>
      AG.register_plugin g c = (Exn "ValueError: plane already registered", g)
  | None =>
      fst (AG.register_plugin g c) = Ok tt
      ∧ (enabled (get_config c) = true →
         new_plane c ∈ AG.phase_plugins (snd (AG.register_plugin g c))
                         (phase (get_config c)))
  end.
Proof.
  intros Hnd. unfold AG.register_plugin, register.
  destruct (dict_get _ _) eqn:Hget; simpl.
  - f_equal. destruct g as [? ? ? ? ? [? ?] ? ? ?]; reflexivity.
  - split; [reflexivity|]. intros Hen.
    unfold AG.phase_plugins, AG._get_plugins_for_phase; simpl.
    set (r' := mkPlaneRegistry _ _).
    set (insts := <[name (get_config c) := new_plane c]> (AG._plugin_instances g)).
    assert (Hin : c ∈ get_by_phase r' (phase (get_config c))).
    { unfold get_by_phase. rewrite sorted_by_priority_perm.
      apply list_elem_of_filter. split; [reflexivity|].
      apply list_elem_of_fmap. exists (name (get_config c), c). split; [reflexivity|].
      apply dict_get_elem. unfold get_all. subst r'; simpl.
      rewrite dict_get_update by (by apply dict_set_NoDup).
      by rewrite dict_get_set_eq. }
    pose proof (collect_plugins_member c (new_plane c) _ insts Hin) as Hmem.
    destruct (AG.collect_plugins _ insts) as [plugins insts']; simpl in *.
    apply Hmem; [apply lookup_insert_eq | exact Hen].
Qed.

End RegisterPlugin.

Lemma register_plugin_takes_effect_witness :
  let c := Samples.passing_plugin "a" Plugins.POST_INTENT 5 in
  let g := Samples.guard_with true true true [] in
  fst (AG.register_plugin g c) = Ok tt
  ∧ (Plugins.enabled (Plugins.get_config c) = true →
     Plugins.new_plane c ∈ AG.phase_plugins (snd (AG.register_plugin g c))
                              (Plugins.phase (Plugins.get_config c))).
Proof.
  intros c g.
  apply (register_plugin_takes_effect g c). apply NoDup_nil_2.
Defined.
